(** * The sales dashboard pipeline of [app.py]

    A shallow embedding of the data pipeline of the dashboard
    ([clean_data], [add_aggregated_features] and the loading part of
    [main]) together with the pandas operations these functions call.

    Modelling choices, fixed here once:

    - a cell is an [option value]: [None] is pandas' missing marker
      (NaN / None), [Some (Num q)] a number, [Some (Str s)] any
      non-numeric object.  A number is represented by its value, a
      rational ([Qc]): every 64-bit integer and every finite binary64
      float is one, and on values the comparison with 0 and the equality
      of group keys are exact.  Infinities are outside the embedding.
    - the arithmetic the library computes with (the sum and the mean of
      a group, the quotient of two numbers) depends on the dtype of the
      column: 64-bit integers wrap around, binary64 floats round.  It is
      a parameter of the embedding, the class [Arithmetic]; what is
      proved of the program is proved for every arithmetic.  The
      instance [binary64], built on the Standard Library's specification
      of IEEE 754 arithmetic, is the arithmetic of a float column, and
      the examples are evaluated with it; [int64] is the arithmetic of a
      column of 64-bit integers.
    - a record (one row) is a finite map from column labels to values, a
      label without a binding being a missing cell; a [DataFrame] is its
      ordered column labels and its ordered records.  Row labels (the
      pandas index) are not represented: records are told apart by
      position.
    - a DataFrame is a mutable Python object.  Objects live in a store
      and are passed by reference, so that the column assignment inside
      [clean_data] is visible to every holder of the reference.
    - Python exceptions are an error monad layered over the store.
    - pandas operations are embedded by their documented behaviour on the
      calls the program makes ([fillna], comparison, boolean selection,
      [groupby(...).agg], [sum], [size] and [first], left [merge] with
      its suffixes, row-wise [apply], column assignment, [sort_values]).
    - [load_data] is defined by the program but never called by it; it
      is embedded together with the cache its decorator keeps.
    - the tables [main] computes for its charts are embedded as
      functions of the aggregated Dataset; the selection of columns by
      dtype and the drawing of the charts are not. *)

From Stdlib Require Import QArith Qcanon SpecFloat.
From stdpp Require Import base option list gmap strings numbers countable sorting.

(** ** Values and exceptions *)

Inductive value :=
  | Num (q : Qc)
  | Str (s : string).

Global Instance value_eq_dec : EqDecision value.
Proof. solve_decision. Defined.

Global Instance value_countable : Countable value.
Proof.
  refine (inj_countable'
            (λ v, match v with Num q => inl q | Str s => inr s end)
            (λ x, match x with inl q => Num q | inr s => Str s end) _).
  by intros [].
Defined.

(** Integer literals of the source and of the examples. *)
Definition num (z : Z) : value := Num (Qc_of_Z z).

(** The ways in which [requests.get] / [raise_for_status] fail; all of
    them are subclasses of [requests.exceptions.RequestException]. *)
Inductive request_failure :=
  | ConnectionError
  | Timeout
  | HTTPError (status : Z).

Inductive exn :=
  | NameError (name : string)
  | UnboundLocalError (name : string)
  | KeyError (key : string)
  | TypeError
  | ZeroDivisionError
  | RequestException (f : request_failure)
  | ParserError
  (** Not a Python exception: the embedding stops here.  It marks the
      situations the embedding leaves out: frames with duplicate labels
      (which the suffixes of [pd.merge] can produce, or be refused for),
      the assignment of a frame to a column, and a reference to no
      object, which no run can hold. *)
  | Unsupported.

Inductive result (A : Type) :=
  | Ok (a : A)
  | Raise (e : exn).
Arguments Ok {A} a.
Arguments Raise {A} e.

Global Instance request_failure_eq_dec : EqDecision request_failure.
Proof. solve_decision. Defined.
Global Instance exn_eq_dec : EqDecision exn.
Proof. solve_decision. Defined.
Global Instance result_eq_dec `{EqDecision A} : EqDecision (result A).
Proof. solve_decision. Defined.

Global Instance result_ret : MRet result := @Ok.
Global Instance result_bind : MBind result := λ A B f m,
  match m with Ok a => f a | Raise e => Raise e end.
Global Instance result_fmap : FMap result := λ A B f m,
  match m with Ok a => Ok (f a) | Raise e => Raise e end.

(** ** DataFrames *)

Record DataFrame := mkDataFrame {
  columns : list string;
  rows : list (gmap string value)
}.

Global Instance DataFrame_eq_dec : EqDecision DataFrame.
Proof. solve_decision. Defined.

(** [df[name]]: the series of the cells of one column. *)
Definition getitem (name : string) (df : DataFrame) : list (option value) :=
  (λ r : gmap string value, r !! name) <$> rows df.

(** [series.fillna(fill)]. *)
Definition fillna (fill : value) (s : list (option value)) : list (option value) :=
  (λ c : option value, Some (default fill c)) <$> s.

(** Writing one cell of a record; writing a missing value clears it. *)
Definition set_cell (name : string) (c : option value)
    (r : gmap string value) : gmap string value :=
  partial_alter (λ _, c) name r.

(** [df[name] = series]: the column is overwritten where it stands when
    the label exists, and appended as the last column otherwise.  The
    series assigned in this program are always computed from the frame
    they are assigned to, hence of its length. *)
Definition setitem (name : string) (s : list (option value)) (df : DataFrame) : DataFrame :=
  {| columns := if bool_decide (name ∈ columns df) then columns df
                else columns df ++ [name];
     rows := zip_with (set_cell name) s (rows df) |}.

(** One cell of [series >= 0].  A missing value compares false; comparing
    a non-numeric object with an integer raises [TypeError]. *)
Definition ge_zero (c : option value) : result bool :=
  match c with
  | None => Ok false
  | Some (Num q) => Ok (bool_decide (0 ≤ q)%Qc)
  | Some (Str _) => Raise TypeError
  end.

(** [series >= 0]. *)
Definition series_ge_zero (s : list (option value)) : result (list bool) :=
  mapM ge_zero s.

(** [df[mask]]: a new frame with the records whose mask entry is true. *)
Definition getitem_mask (mask : list bool) (df : DataFrame) : DataFrame :=
  {| columns := columns df;
     rows := snd <$> filter (λ p : bool * gmap string value, p.1 = true)
                            (zip mask (rows df)) |}.

(** ** The store of DataFrame objects and the program monad *)

Inductive event :=
  | st_title (text : string)
  | st_subheader (text : string)
  | st_markdown (text : string)
  | st_error (e : exn)
  | st_dataframe (d : DataFrame)
  | called (function : string).

Record state := mkState {
  heap : list DataFrame;     (* the DataFrame objects, by reference *)
  page : list event          (* what the run has shown or called so far *)
}.

Global Instance event_eq_dec : EqDecision event.
Proof. solve_decision. Defined.
Global Instance state_eq_dec : EqDecision state.
Proof. solve_decision. Defined.

(** Closed goals are decided by evaluation; equality of rationals is
    decided on their canonical fractions. *)
Ltac by_evaluation :=
  match goal with
  | |- ?P => apply (bool_decide_unpack P); vm_compute; exact I
  end.

Definition M (A : Type) : Type := state → result A * state.

Definition ret {A} (a : A) : M A := λ st, (Ok a, st).
Definition raise {A} (e : exn) : M A := λ st, (Raise e, st).
Definition bind {A B} (m : M A) (k : A → M B) : M B := λ st,
  match m st with
  | (Ok a, st') => k a st'
  | (Raise e, st') => (Raise e, st')
  end.
Definition lift {A} (m : result A) : M A := λ st, (m, st).

Declare Scope prog_scope.
Delimit Scope prog_scope with prog.
Notation "x ⇐ m ;; k" := (bind m (λ x, k))
  (at level 100, m at next level, k at level 200, right associativity) : prog_scope.
Notation "m ;;; k" := (bind m (λ _, k))
  (at level 100, k at level 200, right associativity) : prog_scope.

Local Open Scope prog_scope.

(** Dereferencing; a Python name always refers to a live object, so the
    error branch is never taken from a reference obtained in a run. *)
Definition load (ref : nat) : M DataFrame := λ st,
  match heap st !! ref with
  | Some d => (Ok d, st)
  | None => (Raise Unsupported, st)
  end.

(** In-place update of the object behind a reference. *)
Definition store (ref : nat) (d : DataFrame) : M unit := λ st,
  (Ok (), {| heap := <[ref := d]> (heap st); page := page st |}).

(** A new object. *)
Definition alloc (d : DataFrame) : M nat := λ st,
  (Ok (length (heap st)), {| heap := heap st ++ [d]; page := page st |}).

Definition emit (e : event) : M unit := λ st,
  (Ok (), {| heap := heap st; page := page st ++ [e] |}).

(** ** [clean_data] *)

Definition clean_data (df : nat) : M nat :=
  d ⇐ load df;;
  if bool_decide ("Sales" ∈ columns d) then
    (* df['Sales'] = df['Sales'].fillna(0) *)
    store df (setitem "Sales" (fillna (num 0) (getitem "Sales" d)) d);;;
    (* df = df[df['Sales'] >= 0] *)
    d ⇐ load df;;
    mask ⇐ lift (series_ge_zero (getitem "Sales" d));;
    df ⇐ alloc (getitem_mask mask d);;
    ret df
  else
    ret df.

(** ** The arithmetic of the library

    The sum and the mean of the numbers of a group (in the order of the
    records) and the quotient of two numbers, as pandas and Python
    compute them for the dtype at hand.  Their results are taken to be
    finite. *)
Class Arithmetic := {
  sum_of : list Qc → Qc;
  mean_of : list Qc → Qc;
  quotient : Qc → Qc → Qc
}.

(** *** binary64

    IEEE 754 double precision, round to nearest even, from
    [Stdlib.Floats.SpecFloat] (precision 53, exponents up to 1024). *)

Definition b64_of_Z (z : Z) : spec_float := binary_normalize 53 1024 z 0 false.

(** The float of a value; exact when the value is that of a float. *)
Definition b64_of_Qc (q : Qc) : spec_float :=
  SFdiv 53 1024 (b64_of_Z (Qnum q)) (b64_of_Z (Zpos (Qden q))).

(** The value of a finite float.  (Infinities and NaN have none; no
    statement below is evaluated at one.) *)
Definition Qc_of_b64 (x : spec_float) : Qc :=
  match x with
  | S754_finite s m e => Q2Qc (inject_Z (cond_Zopp s (Zpos m)) * Qpower 2 e)
  | _ => 0%Qc
  end.

(** The floats of a series added up from the first to the last.  (pandas
    compensates the rounding errors of the partial sums; where the
    partial sums are exact, as in the examples below, that changes
    nothing.) *)
Definition b64_sum (qs : list Qc) : spec_float :=
  foldl (SFadd 53 1024) (S754_zero false) (b64_of_Qc <$> qs).

Global Instance binary64 : Arithmetic := {|
  sum_of qs := Qc_of_b64 (b64_sum qs);
  mean_of qs :=
    Qc_of_b64 (SFdiv 53 1024 (b64_sum qs) (b64_of_Z (Z.of_nat (length qs))));
  quotient a b := Qc_of_b64 (SFdiv 53 1024 (b64_of_Qc a) (b64_of_Qc b))
|}.

(** *** int64

    A column of 64-bit integers: its sum wraps around; its mean and the
    quotient of two integers are floats (exact below 2^53 and on powers
    of two). *)

Definition wrap64 (z : Z) : Z := (z + 2 ^ 63) mod 2 ^ 64 - 2 ^ 63.

Definition int64 : Arithmetic := {|
  sum_of qs := Qc_of_Z (wrap64 (foldr Z.add 0%Z ((λ q : Qc, Qnum q) <$> qs)));
  mean_of := @mean_of binary64;
  quotient := @quotient binary64
|}.

(** ** [add_aggregated_features] *)

(** The key of a record under [groupby(by)]: its cells in the key columns.
    With pandas' default [dropna=True] a record with a missing key cell
    belongs to no group. *)
Definition row_key (on : list string) (r : gmap string value) : option (list value) :=
  mapM (λ c : string, r !! c) on.

(** The records of the group with key [k]. *)
Definition group (on : list string) (k : list value)
    (rs : list (gmap string value)) : list (gmap string value) :=
  filter (λ r, row_key on r = Some k) rs.

(** The numbers of a series; the aggregations skip missing values and
    fail on non-numeric objects. *)
Fixpoint numbers (s : list (option value)) : result (list Qc) :=
  match s with
  | [] => Ok []
  | None :: s => numbers s
  | Some (Num q) :: s => qs ← numbers s; Ok (q :: qs)
  | Some (Str _) :: s => Raise TypeError
  end.

(** The statistics joined onto one record by the left join: those of the
    entry with the record's key, if the record has a key and the table
    has such an entry. *)
Definition joined (on : list string)
    (right : gmap (list value) (option value * option value))
    (r : gmap string value) : option (option value * option value) :=
  row_key on r ≫= (right !!.).

(** A label of one side of a join: suffixed when both sides have it. *)
Definition suffixed (overlap : list string) (suffix c : string) : string :=
  if bool_decide (c ∈ overlap) then c +:+ suffix else c.

(** Moving the cell of a record from one label to another. *)
Definition rename_cell (c c' : string) (r : gmap string value) : gmap string value :=
  set_cell c' (r !! c) (delete c r).

(** [pd.merge(left, right, on=on, how='left')], where [right] is a table
    of statistics keyed by [on] and [c1], [c2] are the labels of its two
    value columns.  The records of [left] are kept, in order; a record
    without match gets missing values.  A label that both sides have is
    suffixed on both: [_x] on the left, [_y] on the right.  Suffixed
    labels that meet an existing label are refused by pandas or give a
    frame with duplicate labels. *)
Definition merge_left (left : DataFrame) (on : list string)
    (right : gmap (list value) (option value * option value))
    (c1 c2 : string) : result DataFrame :=
  if bool_decide (c1 ∈ columns left ∨ c2 ∈ columns left) then
    let overlap := filter (λ c, c ∈ columns left) [c1; c2] in
    if bool_decide (Exists (λ c, c +:+ "_x" ∈ columns left ++ [c1; c2] ∨
                                 c +:+ "_y" ∈ columns left ++ [c1; c2]) overlap)
    then Raise Unsupported
    else Ok {| columns := (suffixed overlap "_x" <$> columns left) ++
                          (suffixed overlap "_y" <$> [c1; c2]);
               rows := (λ r, set_cell (suffixed overlap "_y" c2) (joined on right r ≫= snd)
                               (set_cell (suffixed overlap "_y" c1)
                                  (joined on right r ≫= fst)
                                  (foldr (λ c, rename_cell c (c +:+ "_x")) r overlap)))
                       <$> rows left |}
  else Ok {| columns := columns left ++ [c1; c2];
             rows := (λ r, set_cell c2 (joined on right r ≫= snd)
                             (set_cell c1 (joined on right r ≫= fst) r))
                     <$> rows left |}.

(** [row[name]] inside [df.apply(..., axis=1)]: the labels of the row are
    the columns of the frame. *)
Definition row_getitem (cols : list string) (name : string)
    (row : gmap string value) : result (option value) :=
  if bool_decide (name ∈ cols) then Ok (row !! name) else Raise (KeyError name).

(** [x != 0]: true of a missing value and of any non-number. *)
Definition ne_zero (x : option value) : bool :=
  match x with
  | Some (Num q) => bool_decide (q ≠ 0%Qc)
  | _ => true
  end.

(** [df.apply(f, axis=1)]: the series of [f] over the records.  On a
    frame without records pandas calls [f] once, on a record of missing
    values, to find out what kind of result to build; when that call
    raises, the result is a frame instead of a series, which the program
    then assigns to a column. *)
Definition apply_axis1 (f : list string → gmap string value → result (option value))
    (df : DataFrame) : result (list (option value)) :=
  match rows df with
  | [] => match f (columns df) ∅ with
          | Ok _ => Ok []
          | Raise _ => Raise Unsupported
          end
  | _ => mapM (f (columns df)) (rows df)
  end.

Section Aggregator.
Context {arithmetic : Arithmetic}.

(** The mean of the numbers of a group; a group without numbers has
    none. *)
Definition mean_cell (qs : list Qc) : option value :=
  match qs with
  | [] => None
  | _ => Some (Num (mean_of qs))
  end.

(** [.agg(['mean', 'sum'])] on the series of one group: the mean of an
    all-missing group is missing, its sum is the sum of no number. *)
Definition agg_mean_sum (s : list (option value)) : result (option value * option value) :=
  qs ← numbers s; Ok (mean_cell qs, Some (Num (sum_of qs))).

(** The table of group statistics: one entry per key that occurs in [l],
    computed over the records of that key in [all].  (pandas orders the
    entries by key; a keyed table has no order to observe.) *)
Fixpoint group_table (on : list string) (col : string)
    (all l : list (gmap string value))
    : result (gmap (list value) (option value * option value)) :=
  match l with
  | [] => Ok ∅
  | r :: l =>
      t ← group_table on col all l;
      match row_key on r with
      | None => Ok t
      | Some k =>
          st ← agg_mean_sum ((λ r : gmap string value, r !! col) <$> group on k all);
          Ok (<[k := st]> t)
      end
  end.

(** [df.groupby(by)[col].agg(['mean', 'sum'])]; a label that is not a
    column raises [KeyError]. *)
Definition groupby_agg (on : list string) (col : string) (df : DataFrame)
    : result (gmap (list value) (option value * option value)) :=
  match filter (λ c, c ∉ columns df) on with
  | c :: _ => Raise (KeyError c)
  | [] =>
      if bool_decide (col ∈ columns df)
      then group_table on col (rows df) (rows df)
      else Raise (KeyError col)
  end.

(** Python's [x / y] on cells. *)
Definition truediv (x y : option value) : result (option value) :=
  match x, y with
  | Some (Str _), _ | _, Some (Str _) => Raise TypeError
  | _, Some (Num b) =>
      if bool_decide (b = 0%Qc) then Raise ZeroDivisionError
      else Ok ((λ v, match v with Num a => Num (quotient a b) | Str s => Str s end) <$> x)
  | _, None => Ok None
  end.

(** [lambda row: row['Sales'] / row['total_sales_by_group']
                 if row['total_sales_by_group'] != 0 else 0] *)
Definition sales_ratio (cols : list string) (row : gmap string value)
    : result (option value) :=
  t ← row_getitem cols "total_sales_by_group" row;
  if ne_zero t then
    s ← row_getitem cols "Sales" row;
    t ← row_getitem cols "total_sales_by_group" row;
    truediv s t
  else Ok (Some (num 0)).

(** The function only reads its argument: [groupby] and [merge] build new
    objects and the column assignment is on the merged frame, so it is
    embedded as a function on frame values. *)
Definition add_aggregated_features (df : DataFrame) : result DataFrame :=
  group_df ← groupby_agg ["Country"; "Segment"] "Sales" df;
  df ← merge_left df ["Country"; "Segment"] group_df
         "avg_sales_by_group" "total_sales_by_group";
  ratio ← apply_axis1 sales_ratio df;
  Ok (setitem "sales_ratio" ratio df).
End Aggregator.

(** ** [main], up to the hand-over to the charts *)

(** The names bound in the module's namespace when [main] runs: the three
    imports at the top of the file and the four functions it defines. *)
Definition module_globals : list string :=
  ["st"; "pd"; "px"; "load_data"; "clean_data"; "add_aggregated_features"; "main"].

Definition github_url : string :=
  "https://raw.githubusercontent.com/gpawank4/sales_prediction/main/data.xlsx".

(** [response.raise_for_status()]: client and server error codes raise. *)
Definition raise_for_status (status : Z) : result unit :=
  if bool_decide (400 ≤ status < 600)%Z
  then Raise (RequestException (HTTPError status))
  else Ok ().

(** [try: body  except ...: handler]; the handler sees the state the
    body left behind and decides itself whether it matches. *)
Definition try_except {A} (body : M A) (handler : exn → M A) : M A := λ st,
  match body st with
  | (Ok a, st') => (Ok a, st')
  | (Raise e, st') => handler e st'
  end.

(** Reading a local variable that may not have been assigned. *)
Definition local_var (x : string) (v : option nat) : M nat :=
  match v with
  | Some ref => ret ref
  | None => raise (UnboundLocalError x)
  end.

Section Main.
Context {arithmetic : Arithmetic}.
(** The namespace in which [main] looks up global names, and the world
    outside the program: the outcome of the GET request (a failure of
    the transport, or a response with its status code and body), the
    spreadsheet parser, and what the rest of [main] (the previews and
    the charts) shows for a frame. *)
Variable globals : list string.
Variable requests_get : string → request_failure + Z * string.
Variable read_excel : string → result DataFrame.
Variable presenter : DataFrame → list event.

(** Evaluating a global name. *)
Definition global (x : string) : M unit :=
  if bool_decide (x ∈ globals) then ret () else raise (NameError x).

(** [st.f(...)]. *)
Definition st_call (e : event) : M unit :=
  global "st";;; emit e.

(** [f(arg)]: the function name is evaluated, then the argument, then
    the body runs. *)
Definition call (f : string) (arg : M nat) (body : nat → M nat) : M nat :=
  global f;;; a ⇐ arg;; emit (called f);;; body a.

Definition main : M unit :=
  st_call (st_title "Sales Data Visualization Dashboard");;;
  st_call (st_subheader
    "Internship Assessment for Smith+Nephew by G Pawan Kumar Reddy, VIT");;;
  st_call (st_markdown "floating help icon");;;
  data ⇐ try_except
    ( (* response = requests.get(github_url) *)
      global "requests";;;
      response ⇐ lift (match requests_get github_url with
                       | inl f => Raise (RequestException f)
                       | inr response => Ok response
                       end);;
      (* response.raise_for_status() *)
      lift (raise_for_status response.1);;;
      (* data = pd.read_excel(io.StringIO(response.text)) *)
      global "pd";;;
      global "io";;;
      d ⇐ lift (read_excel response.2);;
      data ⇐ alloc d;;
      ret (Some data) )
    ( (* except requests.exceptions.RequestException as e: *)
      λ e,
      global "requests";;;
      match e with
      | RequestException _ =>
          (* st.error(f"Error loading data: {e}") *)
          st_call (st_error e);;;
          ret None
      | _ => raise e
      end );;
  (* data = clean_data(data) *)
  data ⇐ call "clean_data" (local_var "data" data) clean_data;;
  (* data = add_aggregated_features(data) *)
  data ⇐ call "add_aggregated_features" (ret data)
           (λ df, d ⇐ load df;; d ⇐ lift (add_aggregated_features d);; alloc d);;
  (* the previews and the charts *)
  d ⇐ load data;;
  foldr (λ e k, st_call e;;; k) (ret ()) (presenter d).
End Main.

(** ** [load_data] *)

Section Loader.
(** The spreadsheet parser, and [pd.to_datetime] on one value of a
    column: [None] when the value cannot be read as a date.  The format
    pandas reads a value with can depend on the other values of its
    column, hence the first argument. *)
Variable read_excel : string → result DataFrame.
Variable parse_datetime : list (option value) → value → option value.

(** [pd.to_datetime(series, errors='coerce')]: what cannot be parsed
    becomes a missing value instead of an error; a missing value stays
    missing. *)
Definition to_datetime (s : list (option value)) : list (option value) :=
  (λ c : option value, c ≫= parse_datetime s) <$> s.

(** The function under the decorator. *)
Definition load_data_body (file_path : string) : M nat :=
  (* df = pd.read_excel(file_path) *)
  d ⇐ lift (read_excel file_path);;
  df ⇐ alloc d;;
  if bool_decide ("Date" ∈ columns d) then
    (* df['Date'] = pd.to_datetime(df['Date'], errors='coerce') *)
    store df (setitem "Date" (to_datetime (getitem "Date" d)) d);;;
    ret df
  else
    ret df.

(** [@st.cache_data]: the results are kept per argument, as values; a
    call with a known argument does not run the function and returns a
    new object with the kept value.  The cache is threaded through the
    calls. *)
Definition load_data (cache : gmap string DataFrame) (file_path : string)
    : M (nat * gmap string DataFrame) :=
  match cache !! file_path with
  | Some d => df ⇐ alloc d;; ret (df, cache)
  | None =>
      df ⇐ load_data_body file_path;;
      d ⇐ load df;;
      ret (df, <[file_path := d]> cache)
  end.
End Loader.

(** ** The tables behind the previews and the charts of [main] *)

(** [[col for col in columns if col != chosen]], the options of the
    second axis (lines 149 and 209). *)
Definition other_columns (cols : list string) (chosen : string) : list string :=
  filter (λ col, col ≠ chosen) cols.

(** The values of a key column that label a group: the values present,
    each once. *)
Definition group_values (key : string) (rs : list (gmap string value)) : list value :=
  remove_dups (omap (λ r : gmap string value, r !! key) rs).

Section Charts.
Context {arithmetic : Arithmetic}.

(** The sum of one group, missing values skipped.  Sums of non-numeric
    objects (pandas concatenates strings) are outside the embedding. *)
Definition group_sum (key col : string) (rs : list (gmap string value)) (k : value)
    : result (value * Qc) :=
  match numbers ((λ r : gmap string value, r !! col) <$> group [key] [k] rs) with
  | Ok qs => Ok (k, sum_of qs)
  | Raise _ => Raise Unsupported
  end.

(** [df.groupby(key)[col].sum().reset_index()]: one entry per group. *)
Definition groupby_sum (key col : string) (df : DataFrame) : result (list (value * Qc)) :=
  if bool_decide (key ∈ columns df) then
    if bool_decide (col ∈ columns df)
    then mapM (group_sum key col (rows df)) (group_values key (rows df))
    else Raise (KeyError col)
  else Raise (KeyError key).

End Charts.

(** The order of a table sorted by descending sum. *)
Definition larger_sum_first (a b : value * Qc) : Prop := (b.2 ≤ a.2)%Qc.

Global Instance larger_sum_first_dec : RelDecision larger_sum_first.
Proof. intros a b. unfold larger_sum_first. apply _. Defined.

(** [.sort_values(by=col, ascending=False)] on such a table.  pandas does
    not fix the order among entries with equal sums (nor does the order
    in which [groupby] lists them survive the sort otherwise); the
    embedding sorts the entries as found. *)
Definition sort_values_descending (t : list (value * Qc)) : list (value * Qc) :=
  merge_sort larger_sum_first t.

(** [data.groupby(key)["Sales"].sum().reset_index()
        .sort_values(by="Sales", ascending=False)], the table of the bar
    charts by country and by segment (lines 168 and 180). *)
Definition sales_by {arithmetic : Arithmetic} (key : string) (df : DataFrame)
    : result (list (value * Qc)) :=
  sort_values_descending <$> groupby_sum key "Sales" df.

(** [data.groupby(on).size().reset_index(name="Count")] (line 219): the
    number of records of each group, as a table keyed by the group key
    (pandas lists the groups in key order).  A key column that is itself
    labelled [Count] clashes with the new column and is outside the
    embedding. *)
Definition groupby_size (on : list string) (df : DataFrame)
    : result (gmap (list value) nat) :=
  match filter (λ c, c ∉ columns df) on with
  | c :: _ => Raise (KeyError c)
  | [] =>
      if bool_decide ("Count" ∈ on) then Raise Unsupported
      else Ok (list_to_map ((λ k, (k, length (group on k (rows df))))
                              <$> remove_dups (omap (row_key on) (rows df))))
  end.

(** [.first()] on one column of one group: the first value that is not
    missing. *)
Definition first_valid (col : string) (rs : list (gmap string value)) : option value :=
  head (omap (λ r : gmap string value, r !! col) rs).

(** [data.groupby(on)[cols].first().reset_index()] (line 136), as a table
    keyed by the group key, with one cell per column of [cols]. *)
Definition groupby_first (on cols : list string) (df : DataFrame)
    : result (gmap (list value) (list (option value))) :=
  match filter (λ c, c ∉ columns df) (on ++ cols) with
  | c :: _ => Raise (KeyError c)
  | [] =>
      Ok (list_to_map ((λ k, (k, (λ c, first_valid c (group on k (rows df))) <$> cols))
                         <$> remove_dups (omap (row_key on) (rows df))))
  end.

(** The numbers in one column of a list of records, missing cells
    skipped. *)
Definition present_numbers (col : string) (rs : list (gmap string value)) : list Qc :=
  omap (λ r : gmap string value,
          match r !! col with Some (Num q) => Some q | _ => None end) rs.

(** The table of "Aggregated Metrics by Country and Segment". *)
Definition agg_data (df : DataFrame) : result (gmap (list value) (list (option value))) :=
  groupby_first ["Country"; "Segment"]
    ["Sales"; "avg_sales_by_group"; "total_sales_by_group"] df.

(** ** The contracts, in the words of the specification *)

(** "every null measure value is replaced with 0" *)
Definition replace_null (r : gmap string value) : gmap string value :=
  match r !! "Sales" with
  | None => <["Sales" := num 0]> r
  | Some _ => r
  end.

Definition replace_nulls (d : DataFrame) : DataFrame :=
  {| columns := columns d; rows := replace_null <$> rows d |}.

(** "every Record whose measure is negative is removed entirely" *)
Definition negative (r : gmap string value) : bool :=
  match r !! "Sales" with
  | Some (Num q) => bool_decide (q < 0)%Qc
  | _ => false
  end.

Definition remove_negative (d : DataFrame) : DataFrame :=
  {| columns := columns d; rows := filter (λ r, negative r = false) (rows d) |}.

(** "replacement happens before filtering" *)
Definition cleaner_contract (d : DataFrame) : DataFrame :=
  remove_negative (replace_nulls d).

(** The measure column holds numbers and missing values only. *)
Definition numeric_measure (d : DataFrame) : Prop :=
  Forall (λ r : gmap string value, ∀ s, r !! "Sales" ≠ Some (Str s)) (rows d).

(** The invariant of a cleaned frame: every measure is a number, and not
    a negative one. *)
Definition clean_measure (r : gmap string value) : Prop :=
  ∃ q, r !! "Sales" = Some (Num q) ∧ (0 ≤ q)%Qc.

Definition cleaned (d : DataFrame) : Prop := Forall clean_measure (rows d).

(** The Dataset a run returns: the frame behind the returned reference. *)
Definition returned (m : M nat) (st : state) : result (option DataFrame) :=
  match m st with
  | (Ok ref, st') => Ok (heap st' !! ref)
  | (Raise e, _) => Raise e
  end.

(** The columns the Aggregator reads. *)
Definition required_columns (d : DataFrame) : Prop :=
  "Country" ∈ columns d ∧ "Segment" ∈ columns d ∧ "Sales" ∈ columns d.

(** The sum of the specification: the exact sum of the numbers. *)
Definition total (qs : list Qc) : Qc := foldr Qcplus 0%Qc qs.

(** The measures of a list of records, when none is missing. *)
Definition measures (name : string) (rs : list (gmap string value)) : option (list Qc) :=
  mapM (λ r : gmap string value,
          match r !! name with Some (Num q) => Some q | _ => None end) rs.

(** ** The Aggregator, record by record

    The view of [add_aggregated_features] that the proofs work with; the
    lemmas [aggregate_inv] and [aggregate_intro] tie it to the embedding
    above. *)

(** The key columns of the Aggregator. *)
Definition keys : list string := ["Country"; "Segment"].

(** What the Aggregator does to one record of a frame in which the
    labels of the joined columns are free, given the table of group
    statistics and the columns of the merged frame: the two joined cells,
    then the ratio computed from the merged record. *)
Definition merged_row (t : gmap (list value) (option value * option value))
    (r : gmap string value) : gmap string value :=
  set_cell "total_sales_by_group" (joined keys t r ≫= snd)
    (set_cell "avg_sales_by_group" (joined keys t r ≫= fst) r).

Definition aggregated_row {arithmetic : Arithmetic}
    (t : gmap (list value) (option value * option value))
    (cols : list string) (r : gmap string value) : result (gmap string value) :=
  ratio ← sales_ratio cols (merged_row t r);
  Ok (set_cell "sales_ratio" ratio (merged_row t r)).

(** The ratio of a record whose measure is in the cell [m] and whose
    joined sum is in the cell [t], as the guard of the Aggregator
    computes it. *)
Definition guarded_ratio {arithmetic : Arithmetic} (m t : option value)
    : result (option value) :=
  if ne_zero t then truediv m t else Ok (Some (num 0)).

(** What a run of the Aggregator on the frame [d] does to a record [r],
    whatever the labels of [d]: the aggregated record [r'] has the key
    and the measure of [r], carries the sum joined onto [r], and its
    ratio is the guarded quotient of the two.  The joined mean is in the
    column avg_sales_by_group unless [d] has a column of that label,
    which the join then renames on both sides. *)
Definition aggregated_record {arithmetic : Arithmetic} (d : DataFrame)
    (t : gmap (list value) (option value * option value))
    (r r' : gmap string value) : Prop :=
  r' !! "Country" = r !! "Country" ∧
  r' !! "Segment" = r !! "Segment" ∧
  r' !! "Sales" = r !! "Sales" ∧
  r' !! "total_sales_by_group" = joined keys t r ≫= snd ∧
  r' !! "avg_sales_by_group" =
    (if bool_decide ("avg_sales_by_group" ∈ columns d) then None
     else joined keys t r ≫= fst) ∧
  guarded_ratio (r !! "Sales") (joined keys t r ≫= snd) = Ok (r' !! "sales_ratio").

(** ** Sample data *)

Definition record (sales : option value) (country segment : string) : gmap string value :=
  set_cell "Sales" sales (<["Country" := Str country]> (<["Segment" := Str segment]> ∅)).

(** The scenario of the specification: a null, a negative and a positive
    measure in one group. *)
Definition scenario : DataFrame :=
  {| columns := ["Sales"; "Country"; "Segment"];
     rows := [record None "A" "X"; record (Some (num (-5))) "A" "X";
              record (Some (num 10)) "A" "X"] |}.

Definition scenario_cleaned : DataFrame :=
  {| columns := ["Sales"; "Country"; "Segment"];
     rows := [record (Some (num 0)) "A" "X"; record (Some (num 10)) "A" "X"] |}.

Definition initial (d : DataFrame) : state := {| heap := [d]; page := [] |}.

(** The store after the scenario has been cleaned: the caller's frame,
    written to, and the frame returned. *)
Definition scenario_after_clean : state :=
  {| heap := [ {| columns := ["Sales"; "Country"; "Segment"];
                  rows := [record (Some (num 0)) "A" "X"; record (Some (num (-5))) "A" "X";
                           record (Some (num 10)) "A" "X"] |};
               scenario_cleaned ];
     page := [] |}.

(** A frame without measure column. *)
Definition unmeasured : DataFrame :=
  {| columns := ["Country"; "Segment"];
     rows := [<["Country" := Str "A"]> (<["Segment" := Str "X"]> ∅)] |}.

Definition aggregated (sales : option value) (country segment : string)
    (avg tot ratio : option value) : gmap string value :=
  set_cell "sales_ratio" ratio
    (set_cell "total_sales_by_group" tot
       (set_cell "avg_sales_by_group" avg (record sales country segment))).

Definition scenario_aggregated : DataFrame :=
  {| columns := ["Sales"; "Country"; "Segment"; "avg_sales_by_group";
                 "total_sales_by_group"; "sales_ratio"];
     rows := [aggregated (Some (num 0)) "A" "X" (Some (num 5)) (Some (num 10)) (Some (num 0));
              aggregated (Some (num 10)) "A" "X" (Some (num 5)) (Some (num 10)) (Some (num 1))] |}.

(** A frame that already has a column labelled [sales_ratio]. *)
Definition rated : DataFrame :=
  {| columns := ["Sales"; "Country"; "Segment"; "sales_ratio"];
     rows := [set_cell "sales_ratio" (Some (num 7)) (record (Some (num 10)) "A" "X")] |}.

Definition rated_aggregated : DataFrame :=
  {| columns := ["Sales"; "Country"; "Segment"; "sales_ratio";
                 "avg_sales_by_group"; "total_sales_by_group"];
     rows := [aggregated (Some (num 10)) "A" "X" (Some (num 10)) (Some (num 10)) (Some (num 1))] |}.

(** Sales in two countries and two segments. *)
Definition world : DataFrame :=
  {| columns := ["Sales"; "Country"; "Segment"];
     rows := [record (Some (num 10)) "A" "X"; record (Some (num 30)) "B" "X";
              record (Some (num 5)) "A" "Y"] |}.

(** An uncleaned frame: a refund and a sale in one group. *)
Definition refunds : DataFrame :=
  {| columns := ["Sales"; "Country"; "Segment"];
     rows := [record (Some (num (-5))) "A" "X"; record (Some (num 15)) "A" "X"] |}.

Definition refunds_aggregated : DataFrame :=
  {| columns := ["Sales"; "Country"; "Segment"; "avg_sales_by_group";
                 "total_sales_by_group"; "sales_ratio"];
     rows := [aggregated (Some (num (-5))) "A" "X" (Some (num 5)) (Some (num 10))
                (Some (Num (Q2Qc (-1 # 2))));
              aggregated (Some (num 15)) "A" "X" (Some (num 5)) (Some (num 10))
                (Some (Num (Q2Qc (3 # 2))))] |}.

(** Six records of one group, each with measure 1, and the ratio each of
    them gets in binary64: the float next to one sixth. *)
Definition sixths : DataFrame :=
  {| columns := ["Sales"; "Country"; "Segment"];
     rows := replicate 6 (record (Some (num 1)) "A" "X") |}.

Definition sixth : Qc := Q2Qc (6004799503160661 # 36028797018963968).

(** The unit roundoff of binary64, 2^-53: the relative error of one
    rounding to nearest. *)
Definition unit_roundoff : Qc := Q2Qc (1 # 9007199254740992).

Definition sixths_aggregated : DataFrame :=
  {| columns := ["Sales"; "Country"; "Segment"; "avg_sales_by_group";
                 "total_sales_by_group"; "sales_ratio"];
     rows := replicate 6 (aggregated (Some (num 1)) "A" "X" (Some (num 1)) (Some (num 6))
                            (Some (Num sixth))) |}.

(** Two measures of 2^62 in a column of 64-bit integers. *)
Definition wrapped : DataFrame :=
  {| columns := ["Sales"; "Country"; "Segment"];
     rows := replicate 2 (record (Some (num (2 ^ 62))) "A" "X") |}.

Definition wrapped_aggregated : DataFrame :=
  {| columns := ["Sales"; "Country"; "Segment"; "avg_sales_by_group";
                 "total_sales_by_group"; "sales_ratio"];
     rows := replicate 2 (aggregated (Some (num (2 ^ 62))) "A" "X" (Some (num (2 ^ 62)))
                            (Some (num (- 2 ^ 63))) (Some (Num (Q2Qc (-1 # 2))))) |}.


Definition averaged : DataFrame :=
  {| columns := ["Sales"; "Country"; "Segment"; "avg_sales_by_group"];
     rows := [set_cell "avg_sales_by_group" (Some (num 7))
                (record (Some (num 10)) "A" "X")] |}.

Definition averaged_aggregated : DataFrame :=
  {| columns := ["Sales"; "Country"; "Segment"; "avg_sales_by_group_x";
                 "avg_sales_by_group_y"; "total_sales_by_group"; "sales_ratio"];
     rows := [set_cell "sales_ratio" (Some (num 1))
                (set_cell "total_sales_by_group" (Some (num 10))
                   (set_cell "avg_sales_by_group_y" (Some (num 10))
                      (set_cell "avg_sales_by_group_x" (Some (num 7))
                         (record (Some (num 10)) "A" "X"))))] |}.

(** A frame with a date column, and a date parser that reads texts of
    ten characters and nothing else. *)
Definition dated : DataFrame :=
  {| columns := ["Date"; "Sales"];
     rows := [<["Date" := Str "2024-01-31"]> (<["Sales" := num 10]> ∅);
              <["Date" := Str "soon"]> ∅] |}.

Definition ten_characters (column : list (option value)) (v : value) : option value :=
  match v with
  | Str s => if decide (String.length s = 10%nat) then Some (Str s) else None
  | Num _ => None
  end.

(** A frame whose measure column holds a text. *)
Definition mistyped : DataFrame :=
  {| columns := ["Sales"; "Country"; "Segment"];
     rows := [record None "A" "X"; record (Some (Str "n/a")) "A" "X"] |}.

(** A namespace in which [requests] and [io] are bound as well. *)
Definition imported_globals : list string := "requests" :: "io" :: module_globals.

Definition answers (status : Z) (body : string) : string → request_failure + Z * string :=
  λ _, inr (status, body).

Definition unreachable : string → request_failure + Z * string :=
  λ _, inl ConnectionError.

Definition banner : list event :=
  [st_title "Sales Data Visualization Dashboard";
   st_subheader "Internship Assessment for Smith+Nephew by G Pawan Kumar Reddy, VIT";
   st_markdown "floating help icon"].

(** * Properties *)

(** ** The scenarios of the specification, by evaluation *)

Example clean_scenario :
  clean_data 0 (initial scenario) = (Ok 1%nat, scenario_after_clean).
Proof. by_evaluation. Qed.

Example aggregate_scenario :
  add_aggregated_features scenario_cleaned = Ok scenario_aggregated.
Proof. by_evaluation. Qed.

Example main_unreachable_imported read_excel presenter :
  main ("requests" :: "io" :: module_globals) unreachable read_excel presenter
       {| heap := []; page := [] |} =
  (Raise (UnboundLocalError "data"),
   {| heap := []; page := banner ++ [st_error (RequestException ConnectionError)] |}).
Proof. reflexivity. Qed.

(** ** Series and frames, record by record *)

Lemma setitem_rows name (f : gmap string value → option value) d :
  rows (setitem name (f <$> rows d) d) = (λ r, set_cell name (f r) r) <$> rows d.
Proof.
  unfold setitem; simpl. rewrite zip_with_fmap_l, zip_with_diag. done.
Qed.

Lemma mapM_Ok_fmap {A B} (f : A → result B) (g : A → B) (l : list A) :
  Forall (λ x, f x = Ok (g x)) l → mapM f l = Ok (g <$> l).
Proof.
  induction 1 as [|x l Hx _ IH]; [done|].
  simpl. rewrite Hx. simpl. rewrite IH. done.
Qed.

Lemma mapM_Raise {A B} (f : A → result B) (l : list A) e :
  mapM f l = Raise e → Exists (λ x, f x = Raise e) l.
Proof.
  induction l as [|x l IH]; [done|]. simpl.
  destruct (f x) as [y|e'] eqn:Hx; simpl.
  - destruct (mapM f l) as [k|e'] eqn:Hl; simpl; [done|].
    intros [= ->]. by apply Exists_cons_tl, IH.
  - intros [= ->]. by apply Exists_cons_hd.
Qed.

Lemma mapM_Ok_inv {A B} (f : A → result B) (l : list A) k :
  mapM f l = Ok k → Forall2 (λ x y, f x = Ok y) l k.
Proof.
  revert k. induction l as [|x l IH]; intros k; simpl.
  - intros [= <-]. constructor.
  - destruct (f x) as [y|e] eqn:Hx; simpl; [|done].
    destruct (mapM f l) as [k'|e] eqn:Hl; simpl; [|done].
    intros [= <-]. constructor; auto.
Qed.

Lemma Forall_filter_keep {A} (P Q : A → Prop) `{∀ x, Decision (Q x)} (l : list A) :
  Forall P l → Forall P (filter Q l).
Proof.
  rewrite !list.Forall_forall. intros Hl x [_ Hx]%list_elem_of_filter. by apply Hl.
Qed.

Lemma mapM_cons {A B} (f : A → result B) (x : A) (l : list A) :
  mapM f (x :: l) = y ← f x; k ← mapM f l; Ok (y :: k).
Proof. done. Qed.

Lemma mapM_fmap {A B C} (f : B → result C) (g : A → B) (l : list A) :
  mapM f (g <$> l) = mapM (f ∘ g) l.
Proof.
  induction l as [|x l IH]; [done|].
  change (mapM f (g <$> x :: l)) with (y ← f (g x); k ← mapM f (g <$> l); mret (y :: k)).
  by rewrite IH.
Qed.

Lemma mask_rows {A} (g : A → bool) (l : list A) :
  snd <$> filter (λ p : bool * A, p.1 = true) (zip (g <$> l) l) =
  filter (λ x, g x = true) l.
Proof.
  induction l as [|x l IH]; [done|].
  rewrite fmap_cons. cbn [zip zip_with]. rewrite !filter_cons. cbn [fst].
  destruct (g x) eqn:Hx; repeat case_decide; try done.
  rewrite fmap_cons. cbn [snd]. f_equal. apply IH.
Qed.

(** ** The Cleaner *)

Lemma set_cell_Some name v (r : gmap string value) :
  set_cell name (Some v) r = <[name := v]> r.
Proof. done. Qed.

Lemma lookup_set_cell name c (r : gmap string value) :
  set_cell name c r !! name = c.
Proof. unfold set_cell. by rewrite lookup_partial_alter_eq. Qed.

Lemma lookup_set_cell_ne name name' c (r : gmap string value) :
  name ≠ name' → set_cell name c r !! name' = r !! name'.
Proof. intros. unfold set_cell. by rewrite lookup_partial_alter_ne. Qed.

Lemma fill_replace_null (r : gmap string value) :
  set_cell "Sales" (Some (default (num 0) (r !! "Sales"))) r = replace_null r.
Proof.
  rewrite set_cell_Some. unfold replace_null.
  destruct (r !! "Sales") as [v|] eqn:Hv; simpl; [|done].
  by apply insert_id.
Qed.

(** The column assignment of [clean_data] is the null replacement of the
    contract. *)
Lemma fillna_setitem d :
  "Sales" ∈ columns d →
  setitem "Sales" (fillna (num 0) (getitem "Sales" d)) d = replace_nulls d.
Proof.
  intros Hc. unfold replace_nulls, fillna, getitem. rewrite <-list_fmap_compose.
  pose proof (setitem_rows "Sales"
    ((λ c : option value, Some (default (num 0) c)) ∘ (λ r : gmap string value, r !! "Sales")) d) as Hr.
  destruct (setitem _ _ d) as [cs rs] eqn:Hs. simpl in Hr. subst rs.
  unfold setitem in Hs. rewrite bool_decide_eq_true_2 in Hs by done.
  injection Hs as <- _. f_equal.
  apply list_fmap_ext. intros _ r _. apply fill_replace_null.
Qed.

Lemma replace_null_lookup (r : gmap string value) :
  replace_null r !! "Sales" = Some (default (num 0) (r !! "Sales")).
Proof.
  unfold replace_null. destruct (r !! "Sales") as [v|] eqn:Hv; simpl; [done|].
  by rewrite lookup_insert_eq.
Qed.


Lemma replace_null_id (r : gmap string value) :
  is_Some (r !! "Sales") → replace_null r = r.
Proof. intros [v Hv]. unfold replace_null. by rewrite Hv. Qed.

Lemma Qc_nonneg_not_neg (q : Qc) :
  bool_decide (0 ≤ q)%Qc = negb (bool_decide (q < 0)%Qc).
Proof.
  destruct (decide (q < 0)%Qc) as [Hlt|Hge].
  - rewrite (bool_decide_eq_true_2 _ Hlt). apply bool_decide_eq_false_2.
    by apply Qclt_not_le.
  - rewrite (bool_decide_eq_false_2 _ Hge). apply bool_decide_eq_true_2.
    by apply Qcnot_lt_le.
Qed.

(** On a record whose measure is no string, the comparison of the source
    says "not negative". *)
Lemma ge_zero_negative (r : gmap string value) :
  (∀ s, r !! "Sales" ≠ Some (Str s)) →
  ge_zero (replace_null r !! "Sales") = Ok (negb (negative (replace_null r))).
Proof.
  intros Hr. unfold negative. rewrite replace_null_lookup.
  destruct (r !! "Sales") as [[q|s]|] eqn:Hv; simpl.
  - by rewrite Qc_nonneg_not_neg.
  - by destruct (Hr s).
  - done.
Qed.

Lemma mask_numeric d :
  numeric_measure d →
  series_ge_zero (getitem "Sales" (replace_nulls d)) =
  Ok ((λ r, negb (negative r)) <$> rows (replace_nulls d)).
Proof.
  intros Hn. unfold series_ge_zero, getitem. rewrite mapM_fmap.
  apply mapM_Ok_fmap. simpl. apply Forall_fmap.
  unfold numeric_measure in Hn. eapply list.Forall_impl; [exact Hn|].
  intros r Hr. simpl. by apply ge_zero_negative.
Qed.

Lemma mask_remove_negative d :
  getitem_mask ((λ r, negb (negative r)) <$> rows d) d = remove_negative d.
Proof.
  unfold getitem_mask, remove_negative. f_equal.
  rewrite mask_rows. apply list_filter_iff. intros r.
  by destruct (negative r).
Qed.

(** What one call of [clean_data] does to the store when the measure
    column is present: the caller's object is overwritten with the
    null-filled frame, then either the comparison fails or a new object
    holds the selected records. *)
Lemma clean_data_run st df d :
  heap st !! df = Some d → "Sales" ∈ columns d →
  clean_data df st =
  match series_ge_zero (getitem "Sales" (replace_nulls d)) with
  | Ok mask =>
      (Ok (length (heap st)),
       {| heap := <[df := replace_nulls d]> (heap st) ++ [getitem_mask mask (replace_nulls d)];
          page := page st |})
  | Raise e =>
      (Raise e, {| heap := <[df := replace_nulls d]> (heap st); page := page st |})
  end.
Proof.
  intros Hd Hc. unfold clean_data, bind, load at 1. rewrite Hd.
  rewrite bool_decide_eq_true_2 by done.
  rewrite fillna_setitem by done. unfold store, load. simpl.
  rewrite list_lookup_insert_eq by (by eapply lookup_lt_Some).
  unfold lift, alloc, ret. simpl.
  destruct (series_ge_zero _) as [mask|e]; [|done].
  simpl. by rewrite length_insert.
Qed.

Lemma clean_data_absent st df d :
  heap st !! df = Some d → "Sales" ∉ columns d → clean_data df st = (Ok df, st).
Proof.
  intros Hd Hc. unfold clean_data, bind, load. rewrite Hd.
  by rewrite bool_decide_eq_false_2.
Qed.

Lemma clean_data_numeric st df d :
  heap st !! df = Some d → "Sales" ∈ columns d → numeric_measure d →
  clean_data df st =
  (Ok (length (heap st)),
   {| heap := <[df := replace_nulls d]> (heap st) ++ [cleaner_contract d];
      page := page st |}).
Proof.
  intros Hd Hc Hn. rewrite (clean_data_run _ _ _ Hd Hc), mask_numeric by done.
  by rewrite mask_remove_negative.
Qed.

Lemma negative_clean_measure (r : gmap string value) :
  clean_measure r → negative r = false.
Proof.
  intros (q & Hq & Hge). unfold negative. rewrite Hq.
  apply bool_decide_eq_false_2. by apply Qcle_not_lt.
Qed.


(** Whatever the input, a frame selected by the comparison of the source
    has only non-negative numbers in the measure column. *)
Lemma selected_rows_clean (rs : list (gmap string value)) (mask : list bool) :
  Forall2 (λ r b, ge_zero (r !! "Sales") = Ok b) rs mask →
  Forall clean_measure
    (snd <$> filter (λ p : bool * gmap string value, p.1 = true) (zip mask rs)).
Proof.
  induction 1 as [|r b rs mask Hr _ IH]; [constructor|].
  cbn [zip zip_with]. rewrite filter_cons. cbn [fst]. case_decide as Hb; [|done].
  subst b. rewrite fmap_cons. constructor; [|done]. simpl.
  unfold ge_zero in Hr. destruct (r !! "Sales") as [[q|s]|] eqn:Hq; try done.
  exists q. split; [done|]. injection Hr as Hr. by apply bool_decide_eq_true_1 in Hr.
Qed.

Lemma getitem_mask_cleaned d mask :
  series_ge_zero (getitem "Sales" d) = Ok mask → cleaned (getitem_mask mask d).
Proof.
  unfold series_ge_zero, getitem. rewrite mapM_fmap. intros Hm.
  apply mapM_Ok_inv in Hm. by apply selected_rows_clean.
Qed.

Lemma cleaned_numeric d : cleaned d → numeric_measure d.
Proof.
  unfold cleaned, numeric_measure. intros Hc. eapply list.Forall_impl; [exact Hc|].
  intros r (q & Hq & _) s. by rewrite Hq.
Qed.

(** A frame that satisfies the invariant is a fixed point of the
    contract. *)
Lemma cleaner_contract_cleaned d : cleaned d → cleaner_contract d = d.
Proof.
  intros Hc. destruct d as [cs rs]. unfold cleaner_contract, remove_negative, replace_nulls.
  simpl. f_equal. unfold cleaned in Hc. simpl in Hc.
  induction Hc as [|r rs Hr _ IH]; [done|].
  rewrite fmap_cons, filter_cons, IH.
  rewrite replace_null_id by (destruct Hr as (q & -> & _); by eexists).
  by rewrite decide_True by (by apply negative_clean_measure).
Qed.

Lemma contract_is_cleaned d : numeric_measure d → cleaned (cleaner_contract d).
Proof.
  intros Hn. unfold cleaner_contract. rewrite <-mask_remove_negative.
  apply getitem_mask_cleaned. by apply mask_numeric.
Qed.

(** C2. For every input Dataset that contains the measure column (a
    column of numbers and nulls), the Cleaner returns the Dataset obtained
    by first replacing every null measure with 0 and then removing every
    Record whose measure is negative; a Record whose measure was null is
    in the result with measure 0, and a Record whose measure was negative
    is not in the result. *)
Theorem clean_data_meets_contract st df d :
  heap st !! df = Some d → "Sales" ∈ columns d → numeric_measure d →
  ∃ ref st',
    clean_data df st = (Ok ref, st') ∧
    heap st' !! ref = Some (cleaner_contract d) ∧
    (∀ r, r ∈ rows d → r !! "Sales" = None →
          <["Sales" := num 0]> r ∈ rows (cleaner_contract d)) ∧
    (∀ r q, r ∈ rows d → r !! "Sales" = Some (Num q) → (q < 0)%Qc →
            r ∉ rows (cleaner_contract d)).
Proof.
  intros Hd Hc Hn. eexists _, _. split; [by apply clean_data_numeric|].
  split_and!.
  - simpl. rewrite lookup_app_r by (by rewrite length_insert).
    by rewrite length_insert, Nat.sub_diag.
  - intros r Hr Hnull. simpl. apply list_elem_of_filter. split.
    + unfold negative. by rewrite lookup_insert_eq.
    + apply list_elem_of_fmap. exists r. split; [|done].
      unfold replace_null. by rewrite Hnull.
  - intros r q Hr Hq Hneg Hin.
    pose proof (contract_is_cleaned d Hn) as Hcl. unfold cleaned in Hcl.
    rewrite list.Forall_forall in Hcl. destruct (Hcl r Hin) as (q' & Hq' & Hge).
    rewrite Hq in Hq'. injection Hq' as <-. by apply Qclt_not_le in Hneg.
Qed.

Lemma clean_data_meets_contract_witness :
  ∃ ref st',
    clean_data 0 (initial scenario) = (Ok ref, st') ∧
    heap st' !! ref = Some (cleaner_contract scenario) ∧
    (∀ r, r ∈ rows scenario → r !! "Sales" = None →
          <["Sales" := num 0]> r ∈ rows (cleaner_contract scenario)) ∧
    (∀ r q, r ∈ rows scenario → r !! "Sales" = Some (Num q) → (q < 0)%Qc →
            r ∉ rows (cleaner_contract scenario)).
Proof.
  apply (clean_data_meets_contract (initial scenario) 0 scenario).
  - reflexivity.
  - by_evaluation.
  - repeat constructor; intros s; vm_compute; discriminate.
Defined.

(** C5. For every Record of the Dataset the Cleaner returns, the measure
    is not null and is greater than or equal to 0; and on a measure
    column of numbers and nulls the Cleaner does return a Dataset. *)
Theorem cleaned_measures_nonnegative st df d :
  heap st !! df = Some d → "Sales" ∈ columns d →
  (∀ ref st', clean_data df st = (Ok ref, st') →
     ∃ out, heap st' !! ref = Some out ∧
            Forall (λ r : gmap string value,
                      ∃ q, r !! "Sales" = Some (Num q) ∧ (0 ≤ q)%Qc) (rows out)) ∧
  (numeric_measure d → ∃ ref st', clean_data df st = (Ok ref, st')).
Proof.
  intros Hd Hc. split.
  - intros ref st'. rewrite (clean_data_run _ _ _ Hd Hc).
    destruct (series_ge_zero _) as [mask|e] eqn:Hm; [|done].
    intros [= <- <-]. eexists. split.
    + simpl. rewrite lookup_app_r by (by rewrite length_insert).
      by rewrite length_insert, Nat.sub_diag.
    + by apply getitem_mask_cleaned.
  - intros Hn. eexists _, _. by apply clean_data_numeric.
Qed.

Lemma cleaned_measures_nonnegative_witness :
  (∃ out, heap scenario_after_clean !! 1%nat = Some out ∧
          Forall (λ r : gmap string value,
                    ∃ q, r !! "Sales" = Some (Num q) ∧ (0 ≤ q)%Qc) (rows out)) ∧
  (∃ ref st', clean_data 0 (initial scenario) = (Ok ref, st')).
Proof.
  destruct (cleaned_measures_nonnegative (initial scenario) 0 scenario) as [Hinv Hret].
  - reflexivity.
  - by_evaluation.
  - split.
    + apply (Hinv 1%nat scenario_after_clean). by_evaluation.
    + apply Hret. repeat constructor; intros s; vm_compute; discriminate.
Defined.

(** C8. For every input Dataset whose columns do not include the measure
    column, the Cleaner returns that very Dataset, raises nothing and
    leaves the whole store as it was. *)
Theorem clean_data_without_measure st df d :
  heap st !! df = Some d → "Sales" ∉ columns d →
  clean_data df st = (Ok df, st).
Proof. apply clean_data_absent. Qed.

Lemma clean_data_without_measure_witness :
  clean_data 0 (initial unmeasured) = (Ok 0%nat, initial unmeasured).
Proof.
  apply (clean_data_without_measure (initial unmeasured) 0 unmeasured).
  - reflexivity.
  - by_evaluation.
Defined.

(** C7. The Cleaner is idempotent: cleaning the Dataset that a first
    cleaning returned gives the same Dataset as the first cleaning (and
    the same exception when the first cleaning raises one). *)
Theorem clean_data_idempotent st df :
  returned (ref ⇐ clean_data df;; clean_data ref) st = returned (clean_data df) st.
Proof.
  unfold returned, bind.
  destruct (heap st !! df) as [d|] eqn:Hd; cycle 1.
  { unfold clean_data, bind, load. by rewrite Hd. }
  destruct (decide ("Sales" ∈ columns d)) as [Hc|Hc]; cycle 1.
  { rewrite (clean_data_absent _ _ _ Hd Hc). by rewrite (clean_data_absent _ _ _ Hd Hc). }
  rewrite (clean_data_run _ _ _ Hd Hc).
  destruct (series_ge_zero _) as [mask|e] eqn:Hm; [|done].
  pose proof (getitem_mask_cleaned _ _ Hm) as Hcl.
  set (out := getitem_mask mask (replace_nulls d)) in *.
  set (st1 := {| heap := <[df:=replace_nulls d]> (heap st) ++ [out]; page := page st |}).
  assert (heap st1 !! length (heap st) = Some out) as Hout.
  { simpl. rewrite lookup_app_r by (by rewrite length_insert).
    by rewrite length_insert, Nat.sub_diag. }
  rewrite (clean_data_numeric st1 _ out Hout Hc (cleaned_numeric _ Hcl)).
  rewrite Hout, cleaner_contract_cleaned by done.
  f_equal. simpl. rewrite lookup_app_r by (by rewrite length_insert).
  by rewrite length_insert, Nat.sub_diag.
Qed.

Example clean_scenario_twice :
  returned (ref ⇐ clean_data 0;; clean_data ref) (initial scenario) =
  Ok (Some scenario_cleaned).
Proof. by_evaluation. Qed.





(** ** The Aggregator *)

Lemma bind_Ok {A B} (m : result A) (f : A → result B) b :
  m ≫= f = Ok b → ∃ a, m = Ok a ∧ f a = Ok b.
Proof. destruct m as [a|e]; simpl; [|done]. eauto. Qed.

Lemma bind_Raise {A B} (m : result A) (f : A → result B) e :
  m ≫= f = Raise e → m = Raise e ∨ ∃ a, m = Ok a ∧ f a = Raise e.
Proof. destruct m as [a|e']; simpl; [eauto|]. intros [= ->]. by left. Qed.

(** *** [apply] and the column assignment *)

Lemma apply_axis1_Ok f d ratio :
  apply_axis1 f d = Ok ratio → mapM (f (columns d)) (rows d) = Ok ratio.
Proof.
  unfold apply_axis1. destruct (rows d) as [|r l]; [|done].
  destruct (f (columns d) ∅); [|done]. by intros [= <-].
Qed.

Lemma apply_axis1_Raise f d e :
  apply_axis1 f d = Raise e →
  e = Unsupported ∨ mapM (f (columns d)) (rows d) = Raise e.
Proof.
  unfold apply_axis1. destruct (rows d) as [|r l]; [|by right].
  destruct (f (columns d) ∅); [done|]. intros [= <-]. by left.
Qed.

Lemma apply_axis1_intro f d ratio c :
  f (columns d) ∅ = Ok c → mapM (f (columns d)) (rows d) = Ok ratio →
  apply_axis1 f d = Ok ratio.
Proof.
  intros Hc. unfold apply_axis1. destruct (rows d) as [|r l]; [|done].
  by rewrite Hc.
Qed.

(** The function of a successful [apply] accepts the record of missing
    values or some record of the frame. *)
Lemma apply_axis1_accepts f d ratio :
  apply_axis1 f d = Ok ratio → ∃ r c, f (columns d) r = Ok c.
Proof.
  unfold apply_axis1. destruct (rows d) as [|r l].
  - destruct (f (columns d) ∅) as [c|] eqn:Hc; [|done]. eauto.
  - rewrite mapM_cons. destruct (f (columns d) r) as [c|] eqn:Hc; [|done]. eauto.
Qed.

(** The rows of [df[name] = df.apply(f, axis=1)], record by record. *)
Lemma apply_setitem_rows name f d ratio :
  apply_axis1 f d = Ok ratio →
  Forall2 (λ r r', ∃ c, f (columns d) r = Ok c ∧ r' = set_cell name c r)
          (rows d) (rows (setitem name ratio d)).
Proof.
  intros H%apply_axis1_Ok. revert H.
  unfold setitem. simpl. generalize (f (columns d)). clear f. intros f.
  generalize (rows d). clear d. intros l. revert ratio.
  induction l as [|r l IH]; intros ratio; simpl.
  - intros [= <-]. constructor.
  - destruct (f r) as [c|e] eqn:Hc; simpl; [|done].
    destruct (mapM f l) as [k|e] eqn:Hk; simpl; [|done].
    intros [= <-]. simpl. constructor; [by exists c|]. by apply IH.
Qed.

(** *** Numbers and measures *)

Lemma numbers_Raise s e : numbers s = Raise e → e = TypeError.
Proof.
  induction s as [|[[q|x]|] s IH]; simpl; try done.
  - destruct (numbers s); simpl; [done|]. intros [= <-]. by apply IH.
  - by intros [= <-].
Qed.

Lemma numbers_measures name (rs : list (gmap string value)) qs :
  measures name rs = Some qs →
  numbers ((λ r : gmap string value, r !! name) <$> rs) = Ok qs.
Proof.
  unfold measures. revert qs. induction rs as [|r rs IH]; intros qs.
  - by intros [= <-].
  - rewrite fmap_cons. cbn. destruct (r !! name) as [[q|s]|]; cbn; try done.
    destruct (mapM _ rs) as [qs'|] eqn:Hqs; cbn; [|done].
    intros [= <-]. by rewrite (IH qs').
Qed.

Lemma numbers_present col (rs : list (gmap string value)) qs :
  numbers ((λ r : gmap string value, r !! col) <$> rs) = Ok qs →
  qs = present_numbers col rs.
Proof.
  unfold present_numbers. revert qs. induction rs as [|r rs IH]; intros qs.
  - by intros [= <-].
  - rewrite fmap_cons. cbn. destruct (r !! col) as [[q|s]|]; cbn; try done.
    + destruct (numbers _) as [qs'|]; cbn; [|done]. intros [= <-]. f_equal. by apply IH.
    + apply IH.
Qed.

Lemma measures_present name (rs : list (gmap string value)) qs :
  measures name rs = Some qs → present_numbers name rs = qs.
Proof.
  intros H%numbers_measures. symmetry. by apply numbers_present.
Qed.

Lemma numbers_numeric name (rs : list (gmap string value)) :
  Forall (λ r : gmap string value, ∀ s, r !! name ≠ Some (Str s)) rs →
  ∃ qs, numbers ((λ r : gmap string value, r !! name) <$> rs) = Ok qs.
Proof.
  induction 1 as [|r rs Hr _ [qs IH]]; [by eexists|].
  rewrite fmap_cons. cbn. destruct (r !! name) as [[q|s]|]; cbn.
  - rewrite IH. by eexists.
  - by destruct (Hr s).
  - by eexists.
Qed.

Lemma measures_cleaned (rs : list (gmap string value)) :
  Forall clean_measure rs → ∃ qs, measures "Sales" rs = Some qs ∧ length qs = length rs.
Proof.
  unfold measures. induction 1 as [|r rs (q & Hq & _) _ (qs & IH & Hlen)].
  - by exists [].
  - cbn. rewrite Hq. cbn. rewrite IH. cbn. exists (q :: qs). cbn. by rewrite Hlen.
Qed.

Lemma measures_Forall2 name name' (f : Qc → Qc) (l l' : list (gmap string value)) qs :
  Forall2 (λ r r' : gmap string value,
             ∀ q, r !! name = Some (Num q) → r' !! name' = Some (Num (f q))) l l' →
  measures name l = Some qs → measures name' l' = Some (f <$> qs).
Proof.
  unfold measures. intros Hll. revert qs.
  induction Hll as [|r r' l l' Hr _ IH]; intros qs.
  - by intros [= <-].
  - cbn. destruct (r !! name) as [[q|s]|] eqn:Hq; cbn; try done.
    destruct (mapM _ l) as [qs'|] eqn:Hqs; cbn; [|done].
    intros [= <-]. rewrite (Hr q eq_refl). cbn. by rewrite (IH qs').
Qed.

Lemma Forall2_elem_of_r {A B} (P : A → B → Prop) l k y :
  Forall2 P l k → y ∈ k → ∃ x, x ∈ l ∧ P x y.
Proof.
  induction 1 as [|x y' l k Hxy _ IH]; [by intros ?%elem_of_nil|].
  intros [->|Hy]%elem_of_cons.
  - exists x. split; [by left|done].
  - destruct (IH Hy) as (x' & ? & ?). exists x'. split; [by right|done].
Qed.

Lemma Forall2_filter_both {A B} (P : A → B → Prop) (Q1 : A → Prop) (Q2 : B → Prop)
    `{∀ x, Decision (Q1 x), ∀ y, Decision (Q2 y)} l k :
  (∀ x y, P x y → Q1 x ↔ Q2 y) →
  Forall2 P l k → Forall2 (λ x y, Q1 x ∧ P x y) (filter Q1 l) (filter Q2 k).
Proof.
  intros HQ. induction 1 as [|x y l k Hxy _ IH]; [constructor|].
  rewrite !filter_cons. destruct (decide (Q1 x)) as [Hx|Hx].
  - rewrite decide_True by (by apply (HQ x y)). by constructor.
  - rewrite decide_False by (by rewrite <-(HQ x y)). done.
Qed.

Lemma Forall_exists_Forall2 {A B} (P : A → B → Prop) l :
  Forall (λ x, ∃ y, P x y) l → ∃ k, Forall2 P l k.
Proof.
  induction 1 as [|x l [y Hy] _ [k IH]]; [by exists []|].
  exists (y :: k). by constructor.
Qed.

Lemma Forall2_in_l {A B} (P : A → B → Prop) l k :
  Forall2 P l k → Forall2 (λ x y, x ∈ l ∧ P x y) l k.
Proof.
  intros H. apply Forall2_same_length_lookup.
  apply Forall2_same_length_lookup in H as [Hlen Hl].
  split; [done|]. intros i x y Hx Hy. split; [|by eapply Hl].
  apply list_elem_of_lookup. eauto.
Qed.

(** *** The labels of the join *)

Lemma lookup_rename_cell_ne c c' name (r : gmap string value) :
  name ≠ c → name ≠ c' → rename_cell c c' r !! name = r !! name.
Proof.
  intros Hc Hc'. unfold rename_cell.
  rewrite lookup_set_cell_ne by done. by rewrite lookup_delete_ne.
Qed.

Lemma lookup_rename_cell_old c c' (r : gmap string value) :
  c ≠ c' → rename_cell c c' r !! c = None.
Proof.
  intros Hc. unfold rename_cell.
  rewrite lookup_set_cell_ne by done. by rewrite lookup_delete_eq.
Qed.

Lemma merge_left_Raise left on right c1 c2 e :
  merge_left left on right c1 c2 = Raise e → e = Unsupported.
Proof.
  unfold merge_left. repeat case_bool_decide; try done. by intros [= <-].
Qed.

Lemma merge_left_free left on right c1 c2 :
  c1 ∉ columns left → c2 ∉ columns left →
  merge_left left on right c1 c2 =
  Ok {| columns := columns left ++ [c1; c2];
        rows := (λ r, set_cell c2 (joined on right r ≫= snd)
                        (set_cell c1 (joined on right r ≫= fst) r))
                <$> rows left |}.
Proof. intros. unfold merge_left. by rewrite bool_decide_eq_false_2 by tauto. Qed.

(** When the frame has a column total_sales_by_group, the joined frame
    has none: both sides have been renamed. *)
Lemma merge_left_total_renamed d on right m :
  "total_sales_by_group" ∈ columns d →
  merge_left d on right "avg_sales_by_group" "total_sales_by_group" = Ok m →
  "total_sales_by_group" ∉ columns m.
Proof.
  intros Ht. unfold merge_left. rewrite bool_decide_eq_true_2 by tauto.
  case_bool_decide; [done|]. intros [= <-]. simpl.
  set (overlap := filter _ _).
  assert ("total_sales_by_group" ∈ overlap) as Hin.
  { unfold overlap. apply list_elem_of_filter. split; [done|].
    rewrite !elem_of_cons. tauto. }
  assert (∀ c, c ∈ overlap → c = "avg_sales_by_group" ∨ c = "total_sales_by_group") as Hov.
  { intros c [_ Hc]%list_elem_of_filter.
    rewrite !elem_of_cons, elem_of_nil in Hc. tauto. }
  rewrite elem_of_app, list_elem_of_fmap, !elem_of_cons, elem_of_nil.
  unfold suffixed. intros [(c & Hc & _)|[Hc|[Hc|Hc]]]; [| | |done].
  - case_bool_decide as Hco; [|congruence].
    destruct (Hov c Hco) as [-> | ->]; discriminate Hc.
  - case_bool_decide; discriminate Hc.
  - rewrite bool_decide_eq_true_2 in Hc by done. discriminate Hc.
Qed.

(** When the frame has a column avg_sales_by_group and none labelled
    total_sales_by_group, the mean is joined under a suffixed label and
    the column of the frame is renamed. *)
Lemma merge_left_mean_renamed d on right m :
  "avg_sales_by_group" ∈ columns d → "total_sales_by_group" ∉ columns d →
  merge_left d on right "avg_sales_by_group" "total_sales_by_group" = Ok m →
  columns m = (suffixed ["avg_sales_by_group"] "_x" <$> columns d) ++
              ["avg_sales_by_group_y"; "total_sales_by_group"] ∧
  rows m = (λ r, set_cell "total_sales_by_group" (joined on right r ≫= snd)
                   (set_cell "avg_sales_by_group_y" (joined on right r ≫= fst)
                      (rename_cell "avg_sales_by_group" "avg_sales_by_group_x" r)))
           <$> rows d.
Proof.
  intros Ha Ht. unfold merge_left. rewrite bool_decide_eq_true_2 by tauto.
  rewrite !filter_cons, filter_nil.
  rewrite (decide_True _ _ Ha), (decide_False _ _ Ht).
  case_bool_decide; [done|]. by intros [= <-].
Qed.

Section Aggregator_properties.
Context {arithmetic : Arithmetic}.

(** *** The table of group statistics *)

(** The table has an entry for exactly the keys of the records it was
    built from, and the entry of a key holds the statistics of the whole
    group. *)
Lemma group_table_lookup on col all l t k :
  group_table on col all l = Ok t →
  (∃ r, r ∈ l ∧ row_key on r = Some k) →
  ∃ st, agg_mean_sum ((λ r : gmap string value, r !! col) <$> group on k all) = Ok st ∧
        t !! k = Some st.
Proof.
  revert t. induction l as [|r l IH]; intros t; simpl.
  - intros _ (r & Hr & _). by apply elem_of_nil in Hr.
  - intros Ht Hk. apply bind_Ok in Ht as (t' & Ht' & Ht).
    destruct (row_key on r) as [k'|] eqn:Hr.
    + apply bind_Ok in Ht as (st & Hst & [= <-]).
      destruct (decide (k' = k)) as [->|Hne].
      * exists st. by rewrite lookup_insert_eq.
      * rewrite lookup_insert_ne by done. apply (IH t' Ht').
        destruct Hk as (r' & [->|Hr']%elem_of_cons & Hk'); [congruence|eauto].
    + injection Ht as <-. apply (IH t' Ht').
      destruct Hk as (r' & [->|Hr']%elem_of_cons & Hk'); [congruence|eauto].
Qed.

Lemma group_table_Raise on col all l e :
  group_table on col all l = Raise e → e = TypeError.
Proof.
  induction l as [|r l IH]; simpl; [done|].
  intros [?|(t & _ & Ht)]%bind_Raise; [by apply IH|].
  destruct (row_key on r); [|done].
  apply bind_Raise in Ht as [Ht|(st & _ & Ht)]; [|done].
  unfold agg_mean_sum in Ht. apply bind_Raise in Ht as [Ht|(qs & _ & Ht)]; [|done].
  by apply numbers_Raise in Ht.
Qed.

Lemma group_table_numeric on col all l :
  Forall (λ r : gmap string value, ∀ s, r !! col ≠ Some (Str s)) all →
  ∃ t, group_table on col all l = Ok t.
Proof.
  intros Hall. induction l as [|r l [t IH]]; simpl; [by eexists|].
  rewrite IH. simpl. destruct (row_key on r) as [k|]; [|by eexists].
  destruct (numbers_numeric col (group on k all)) as [qs Hqs].
  { unfold group. by apply Forall_filter_keep. }
  unfold agg_mean_sum. rewrite Hqs. simpl. by eexists.
Qed.

Lemma group_table_Some on col all l t k st :
  group_table on col all l = Ok t → t !! k = Some st →
  agg_mean_sum ((λ r : gmap string value, r !! col) <$> group on k all) = Ok st.
Proof.
  revert t. induction l as [|r l IH]; intros t; simpl.
  - by intros [= <-].
  - intros Ht Hk. apply bind_Ok in Ht as (t' & Ht' & Ht).
    destruct (row_key on r) as [k'|] eqn:Hr.
    + apply bind_Ok in Ht as (st' & Hst & [= <-]).
      destruct (decide (k' = k)) as [->|Hne].
      * rewrite lookup_insert_eq in Hk. by injection Hk as <-.
      * rewrite lookup_insert_ne in Hk by done. by apply (IH t').
    + injection Ht as <-. by apply (IH t').
Qed.

Lemma groupby_agg_required d :
  required_columns d →
  groupby_agg keys "Sales" d = group_table keys "Sales" (rows d) (rows d).
Proof.
  intros (Hc & Hs & Hm). unfold groupby_agg, keys.
  rewrite !filter_cons, filter_nil.
  rewrite !decide_False by (by intros []).
  by rewrite bool_decide_eq_true_2.
Qed.

Lemma groupby_agg_Ok d t :
  groupby_agg keys "Sales" d = Ok t →
  required_columns d ∧ group_table keys "Sales" (rows d) (rows d) = Ok t.
Proof.
  intros Ht. assert (required_columns d) as Hreq.
  { unfold groupby_agg, keys in Ht. rewrite !filter_cons, filter_nil in Ht.
    unfold required_columns.
    destruct (decide ("Country" ∉ columns d)) as [|Hc%dec_stable]; [done|].
    destruct (decide ("Segment" ∉ columns d)) as [|Hs%dec_stable]; [done|].
    by case_bool_decide. }
  by rewrite <-groupby_agg_required.
Qed.

Lemma groupby_agg_Raise d e :
  groupby_agg keys "Sales" d = Raise e → e ≠ ZeroDivisionError ∧ e ≠ Unsupported.
Proof.
  unfold groupby_agg. destruct (filter _ _) as [|c l].
  - case_bool_decide; [|by intros [= <-]].
    by intros ->%group_table_Raise.
  - by intros [= <-].
Qed.

(** The statistics joined onto a record that has a key: the mean and the
    sum of the numbers of its group, in the order of the records. *)
Lemma joined_group d t r g :
  groupby_agg keys "Sales" d = Ok t →
  r ∈ rows d → row_key keys r = Some g →
  joined keys t r =
    Some (mean_cell (present_numbers "Sales" (group keys g (rows d))),
          Some (Num (sum_of (present_numbers "Sales" (group keys g (rows d)))))).
Proof.
  intros [_ Ht]%groupby_agg_Ok Hr Hg.
  destruct (group_table_lookup _ _ _ _ _ g Ht) as (st & Hst & Hlook); [by eauto|].
  unfold joined. rewrite Hg. simpl. rewrite Hlook. f_equal.
  unfold agg_mean_sum in Hst. apply bind_Ok in Hst as (qs & Hqs & [= <-]).
  by rewrite (numbers_present _ _ _ Hqs).
Qed.

Lemma joined_statistics d t r g qs :
  groupby_agg keys "Sales" d = Ok t →
  r ∈ rows d → row_key keys r = Some g →
  measures "Sales" (group keys g (rows d)) = Some qs →
  joined keys t r = Some (mean_cell qs, Some (Num (sum_of qs))).
Proof.
  intros Ht Hr Hg Hqs. rewrite (joined_group d t r g Ht Hr Hg).
  by rewrite (measures_present _ _ _ Hqs).
Qed.

(** The joined sum is a number or missing, never a string. *)
Lemma joined_total_numeric d t r :
  groupby_agg keys "Sales" d = Ok t →
  joined keys t r ≫= snd = None ∨ ∃ q, joined keys t r ≫= snd = Some (Num q).
Proof.
  intros [_ Ht]%groupby_agg_Ok. unfold joined.
  destruct (row_key keys r) as [g|]; simpl; [|by left].
  destruct (t !! g) as [st|] eqn:Hst; simpl; [|by left].
  apply (group_table_Some _ _ _ _ _ _ _ Ht) in Hst. unfold agg_mean_sum in Hst.
  apply bind_Ok in Hst as (qs & _ & [= <-]). simpl. by eauto.
Qed.

(** *** One record through the join and the ratio *)

Lemma truediv_no_zero_division x y :
  ne_zero y = true → truediv x y ≠ Raise ZeroDivisionError.
Proof.
  destruct x as [[a|s]|], y as [[b|s']|]; simpl; try done;
    intros Hb%bool_decide_eq_true_1; by rewrite bool_decide_eq_false_2.
Qed.


Lemma row_getitem_Raise cols name r e :
  row_getitem cols name r = Raise e → e = KeyError name.
Proof. unfold row_getitem. case_bool_decide; [done|]. by intros [= <-]. Qed.

Lemma sales_ratio_no_zero_division cols r :
  sales_ratio cols r ≠ Raise ZeroDivisionError.
Proof.
  unfold sales_ratio.
  intros [Ht|(t & Ht & H)]%bind_Raise; [by apply row_getitem_Raise in Ht|].
  destruct (ne_zero t) eqn:Hnz; [|done].
  apply bind_Raise in H as [Hs|(s & Hs & H)]; [by apply row_getitem_Raise in Hs|].
  apply bind_Raise in H as [Ht'|(t' & Ht' & H)]; [by apply row_getitem_Raise in Ht'|].
  rewrite Ht in Ht'. injection Ht' as <-. by apply truediv_no_zero_division in H.
Qed.

Lemma sales_ratio_columns cols r :
  "Sales" ∈ cols → "total_sales_by_group" ∈ cols →
  sales_ratio cols r = guarded_ratio (r !! "Sales") (r !! "total_sales_by_group").
Proof.
  intros Hs Ht. unfold sales_ratio, guarded_ratio, row_getitem.
  rewrite !bool_decide_eq_true_2 by done. simpl.
  by destruct (ne_zero _).
Qed.

(** The function reads the joined sum first: it fails on a frame without
    a column of that label. *)
Lemma sales_ratio_reads_total cols r c :
  sales_ratio cols r = Ok c → "total_sales_by_group" ∈ cols.
Proof.
  unfold sales_ratio, row_getitem. by case_bool_decide.
Qed.

(** On the record of missing values the guard lets the division through,
    which gives a missing value. *)
Lemma sales_ratio_probe cols :
  "Sales" ∈ cols → "total_sales_by_group" ∈ cols →
  sales_ratio cols ∅ = Ok None.
Proof. intros Hs Ht. by rewrite sales_ratio_columns. Qed.


(** The guarded ratio, case by case. *)
Lemma guarded_ratio_Ok m t c :
  guarded_ratio m t = Ok c →
  match t with
  | None => c = None
  | Some (Num s) =>
      if decide (s = 0%Qc) then c = Some (num 0)
      else match m with
           | None => c = None
           | Some (Num q) => c = Some (Num (quotient q s))
           | Some (Str _) => False
           end
  | Some (Str _) => False
  end.
Proof.
  unfold guarded_ratio. destruct t as [[s|x]|]; simpl.
  - case_decide as Hs.
    + rewrite bool_decide_eq_false_2 by (by intros []). by intros [= <-].
    + rewrite bool_decide_eq_true_2 by done.
      destruct m as [[q|x]|]; simpl; try done;
        rewrite bool_decide_eq_false_2 by done; by intros [= <-].
  - by destruct m as [[q|y]|].
  - destruct m as [[q|y]|]; simpl; try done; by intros [= <-].
Qed.

Lemma merged_row_total t r :
  merged_row t r !! "total_sales_by_group" = joined keys t r ≫= snd.
Proof. unfold merged_row. by rewrite lookup_set_cell. Qed.

Lemma merged_row_avg t r :
  merged_row t r !! "avg_sales_by_group" = joined keys t r ≫= fst.
Proof.
  unfold merged_row. rewrite lookup_set_cell_ne by done. by rewrite lookup_set_cell.
Qed.

Lemma merged_row_other t r name :
  name ≠ "avg_sales_by_group" → name ≠ "total_sales_by_group" →
  merged_row t r !! name = r !! name.
Proof. intros. unfold merged_row. by rewrite !lookup_set_cell_ne. Qed.

(** The cells of an aggregated record. *)
Lemma aggregated_row_cells t cols r r' :
  aggregated_row t cols r = Ok r' →
  sales_ratio cols (merged_row t r) = Ok (r' !! "sales_ratio") ∧
  r' !! "total_sales_by_group" = joined keys t r ≫= snd ∧
  r' !! "avg_sales_by_group" = joined keys t r ≫= fst ∧
  (∀ name, name ≠ "avg_sales_by_group" → name ≠ "total_sales_by_group" →
           name ≠ "sales_ratio" → r' !! name = r !! name).
Proof.
  unfold aggregated_row. intros (c & Hc & [= <-])%bind_Ok. split_and!.
  - by rewrite lookup_set_cell.
  - rewrite lookup_set_cell_ne by done. apply merged_row_total.
  - rewrite lookup_set_cell_ne by done. apply merged_row_avg.
  - intros name ???. rewrite lookup_set_cell_ne by done. by apply merged_row_other.
Qed.

Lemma aggregated_record_key d t r r' :
  aggregated_record d t r r' → row_key keys r' = row_key keys r.
Proof.
  intros (Hc & Hs & _). unfold row_key, keys. simpl. by rewrite Hc, Hs.
Qed.

(** *** [add_aggregated_features], step by step and then record by record *)

(** A frame the Aggregator accepts has no column total_sales_by_group. *)
Lemma aggregate_total_free d out :
  add_aggregated_features d = Ok out → "total_sales_by_group" ∉ columns d.
Proof.
  unfold add_aggregated_features. intros H Ht.
  apply bind_Ok in H as (t & _ & H). apply bind_Ok in H as (m & Hm & H).
  apply bind_Ok in H as (ratio & Hratio & _).
  apply apply_axis1_accepts in Hratio as (r & c & Hc).
  apply sales_ratio_reads_total in Hc.
  by apply (merge_left_total_renamed _ _ _ _ Ht Hm).
Qed.

(** On a frame in which the label of the joined mean is free. *)
Lemma aggregate_inv d out :
  "avg_sales_by_group" ∉ columns d →
  add_aggregated_features d = Ok out →
  ∃ t,
    groupby_agg keys "Sales" d = Ok t ∧
    ("avg_sales_by_group" ∉ columns d) ∧ ("total_sales_by_group" ∉ columns d) ∧
    columns out =
      (if bool_decide ("sales_ratio" ∈ columns d)
       then columns d ++ ["avg_sales_by_group"; "total_sales_by_group"]
       else columns d ++ ["avg_sales_by_group"; "total_sales_by_group"; "sales_ratio"]) ∧
    Forall2 (λ r r',
               aggregated_row t
                 (columns d ++ ["avg_sales_by_group"; "total_sales_by_group"]) r = Ok r')
            (rows d) (rows out).
Proof.
  intros Ha H. pose proof (aggregate_total_free d out H) as Hs.
  unfold add_aggregated_features in H.
  apply bind_Ok in H as (t & Ht & H). exists t. split; [done|].
  apply bind_Ok in H as (m & Hm & H).
  rewrite merge_left_free in Hm by done. injection Hm as <-.
  apply bind_Ok in H as (ratio & Hratio & [= <-]).
  split_and!; [done|done| |].
  - simpl. destruct (decide ("sales_ratio" ∈ columns d)) as [Hin|Hin].
    + rewrite !bool_decide_eq_true_2; [done|done|].
      rewrite elem_of_app. by left.
    + rewrite !bool_decide_eq_false_2; [by rewrite <-app_assoc|done|].
      rewrite elem_of_app, !elem_of_cons, elem_of_nil. intros [?|[?|[?|[]]]]; done.
  - apply (apply_setitem_rows "sales_ratio") in Hratio. simpl in Hratio.
    apply Forall2_fmap_l in Hratio. eapply list.Forall2_impl; [exact Hratio|].
    simpl. intros r r' (c & Hc & ->). unfold aggregated_row, merged_row, keys.
    by rewrite Hc.
Qed.

Lemma aggregate_intro d t rs :
  groupby_agg keys "Sales" d = Ok t →
  "avg_sales_by_group" ∉ columns d → "total_sales_by_group" ∉ columns d →
  Forall2 (λ r r',
             aggregated_row t
               (columns d ++ ["avg_sales_by_group"; "total_sales_by_group"]) r = Ok r')
          (rows d) rs →
  ∃ out, add_aggregated_features d = Ok out ∧ rows out = rs.
Proof.
  intros Ht Ha Hs Hrows. unfold add_aggregated_features.
  pose proof (groupby_agg_Ok d t Ht) as [(_ & _ & Hsales) _].
  unfold keys in Ht. rewrite Ht. simpl.
  rewrite merge_left_free by done. simpl.
  set (m := {| columns := _; rows := _ |}).
  assert (∃ ratio, apply_axis1 sales_ratio m = Ok ratio ∧
                   rows (setitem "sales_ratio" ratio m) = rs) as (ratio & Hr & Hrs).
  { assert (∃ ratio, mapM (sales_ratio (columns m)) (rows m) = Ok ratio ∧
                     rows (setitem "sales_ratio" ratio m) = rs) as (ratio & Hr & Hrs).
    { unfold setitem, m. simpl. clear m.
      unfold aggregated_row, merged_row, keys in Hrows.
      induction Hrows as [|r r' l l' Hr _ (ratio & IH1 & IH2)].
      - by exists [].
      - apply bind_Ok in Hr as (c & Hc & [= <-]).
        exists (c :: ratio). rewrite fmap_cons, mapM_cons, Hc. cbn -[mapM].
        rewrite IH1. cbn -[mapM]. by rewrite IH2. }
    exists ratio. split; [|done].
    apply (apply_axis1_intro _ _ _ None); [|done].
    apply sales_ratio_probe; unfold m; simpl;
      rewrite elem_of_app, !elem_of_cons; tauto. }
  rewrite Hr. simpl. eauto.
Qed.

(** Every run of the Aggregator, record by record. *)
Lemma aggregate_records d out :
  add_aggregated_features d = Ok out →
  ∃ t, groupby_agg keys "Sales" d = Ok t ∧
       Forall2 (aggregated_record d t) (rows d) (rows out).
Proof.
  intros H. pose proof (aggregate_total_free d out H) as Hs.
  destruct (decide ("avg_sales_by_group" ∈ columns d)) as [Ha|Ha].
  - unfold add_aggregated_features in H.
    apply bind_Ok in H as (t & Ht & H). exists t. split; [done|].
    pose proof (groupby_agg_Ok d t Ht) as [(_ & _ & Hsales) _].
    apply bind_Ok in H as (m & Hm & H).
    apply merge_left_mean_renamed in Hm as [Hcols Hrows]; [|done..].
    apply bind_Ok in H as (ratio & Hratio & [= <-]).
    apply (apply_setitem_rows "sales_ratio") in Hratio.
    rewrite Hrows in Hratio at 1. apply Forall2_fmap_l in Hratio.
    eapply list.Forall2_impl; [exact Hratio|].
    simpl. intros r r' (c & Hc & ->). unfold aggregated_record.
    rewrite (bool_decide_eq_true_2 _ Ha).
    rewrite sales_ratio_columns in Hc; cycle 1.
    { rewrite Hcols, elem_of_app, list_elem_of_fmap. left. exists "Sales".
      split; [|done]. unfold suffixed. rewrite bool_decide_eq_false_2; [done|].
      rewrite elem_of_cons, elem_of_nil. by intros [?|[]]. }
    { rewrite Hcols, elem_of_app, !elem_of_cons. tauto. }
    rewrite lookup_set_cell in Hc.
    rewrite !lookup_set_cell_ne, lookup_rename_cell_ne in Hc by done.
    split_and!; rewrite ?lookup_set_cell_ne by done.
    + by rewrite lookup_rename_cell_ne.
    + by rewrite lookup_rename_cell_ne.
    + by rewrite lookup_rename_cell_ne.
    + by rewrite lookup_set_cell.
    + by rewrite lookup_rename_cell_old.
    + by rewrite lookup_set_cell.
  - apply aggregate_inv in H as (t & Ht & _ & _ & _ & Hrows); [|done].
    exists t. split; [done|].
    pose proof (groupby_agg_Ok d t Ht) as [(_ & _ & Hsales) _].
    eapply list.Forall2_impl; [exact Hrows|].
    simpl. intros r r' (Hratio & Htot & Havg & Hother)%aggregated_row_cells.
    unfold aggregated_record. rewrite (bool_decide_eq_false_2 _ Ha).
    rewrite sales_ratio_columns in Hratio
      by (rewrite elem_of_app, !elem_of_cons; tauto).
    rewrite merged_row_total, merged_row_other in Hratio by done.
    split_and!; try done; by apply Hother.
Qed.

Lemma aggregate_positions d out :
  "avg_sales_by_group" ∉ columns d →
  add_aggregated_features d = Ok out →
  ∃ t, groupby_agg keys "Sales" d = Ok t ∧
       length (rows out) = length (rows d) ∧
       ∀ i r, rows d !! i = Some r →
         ∃ r', rows out !! i = Some r' ∧
               aggregated_row t
                 (columns d ++ ["avg_sales_by_group"; "total_sales_by_group"]) r = Ok r'.
Proof.
  intros Ha (t & Ht & _ & _ & _ & Hrows)%aggregate_inv; [|done].
  exists t. split_and!; [done| |].
  - symmetry. by eapply Forall2_length.
  - intros i r Hr. by eapply Forall2_lookup_l in Hrows.
Qed.

(** On frames with the required columns, a measure column of numbers and
    nulls and free labels for the joined columns, the Aggregator returns
    a frame. *)
Lemma aggregate_total d :
  required_columns d → numeric_measure d →
  "avg_sales_by_group" ∉ columns d → "total_sales_by_group" ∉ columns d →
  ∃ out, add_aggregated_features d = Ok out.
Proof.
  intros Hreq Hnum Ha Ht.
  destruct (group_table_numeric keys "Sales" (rows d) (rows d) Hnum) as [t Htab].
  rewrite <-groupby_agg_required in Htab by done.
  set (cols := columns d ++ ["avg_sales_by_group"; "total_sales_by_group"]).
  destruct (Forall_exists_Forall2 (λ r r', aggregated_row t cols r = Ok r') (rows d))
    as [rs Hrs].
  { unfold numeric_measure in Hnum. eapply list.Forall_impl; [exact Hnum|].
    intros r Hr. simpl in Hr. unfold aggregated_row.
    rewrite sales_ratio_columns; cycle 1.
    { unfold cols. destruct Hreq as (_ & _ & ?). rewrite elem_of_app. by left. }
    { unfold cols. rewrite elem_of_app, !elem_of_cons. tauto. }
    rewrite merged_row_total, merged_row_other by done. unfold guarded_ratio.
    destruct (joined_total_numeric d t r Htab) as [->|[q ->]]; simpl.
    - destruct (r !! "Sales") as [[m|s]|] eqn:Hm; simpl; try by eexists.
      by destruct (Hr s).
    - case_bool_decide as Hq; simpl; [|by eexists].
      destruct (r !! "Sales") as [[m|s]|] eqn:Hm; simpl;
        rewrite ?bool_decide_eq_false_2 by done; try by eexists.
      by destruct (Hr s). }
  destruct (aggregate_intro d t rs Htab Ha Ht Hrs) as (out & Hout & _). eauto.
Qed.

(** C4. For every Record of the input, the Record of the aggregated
    Dataset at the same position has the same measure, carries the sum of
    the measures of the Record's group in the input, and its ratio is the
    quotient of the measure by that sum when the sum is not zero (a
    missing measure giving a missing ratio) and 0 when the sum is 0; a
    Record without GroupKey has no group sum and a missing ratio.  No
    input Dataset makes the Aggregator raise a division error; and on a
    Dataset with the required columns the Aggregator does compute the
    ratios.  The sum and the quotient are those of the arithmetic at
    hand. *)
Theorem sales_ratio_guarded d :
  add_aggregated_features d ≠ Raise ZeroDivisionError ∧
  (∀ out,
     add_aggregated_features d = Ok out →
     length (rows out) = length (rows d) ∧
     ∀ i r, rows d !! i = Some r →
       ∃ r', rows out !! i = Some r' ∧
             r' !! "Sales" = r !! "Sales" ∧
             match row_key keys r with
             | None => r' !! "sales_ratio" = None
             | Some g =>
                 let s := sum_of (present_numbers "Sales" (group keys g (rows d))) in
                 r' !! "total_sales_by_group" = Some (Num s) ∧
                 (s ≠ 0%Qc → ∀ m, r !! "Sales" = Some (Num m) →
                                  r' !! "sales_ratio" = Some (Num (quotient m s))) ∧
                 (s ≠ 0%Qc → r !! "Sales" = None → r' !! "sales_ratio" = None) ∧
                 (s = 0%Qc → r' !! "sales_ratio" = Some (num 0))
             end) ∧
  (required_columns d → numeric_measure d →
   "avg_sales_by_group" ∉ columns d → "total_sales_by_group" ∉ columns d →
   ∃ out, add_aggregated_features d = Ok out).
Proof.
  split_and!.
  - unfold add_aggregated_features.
    intros [Hg|(t & _ & H)]%bind_Raise; [by apply groupby_agg_Raise in Hg as [? _]|].
    apply bind_Raise in H as [Hm|(m & _ & H)]; [by apply merge_left_Raise in Hm|].
    apply bind_Raise in H as [Hr|(ratio & _ & H)]; [|done].
    apply apply_axis1_Raise in Hr as [?|Hr]; [done|].
    apply mapM_Raise, Exists_exists in Hr as (r & _ & Hr).
    by apply sales_ratio_no_zero_division in Hr.
  - intros out Hout.
    destruct (aggregate_records d out Hout) as (t & Ht & Hrows).
    split; [symmetry; by eapply Forall2_length|].
    intros i r Hi.
    destruct (Forall2_lookup_l _ _ _ _ _ Hrows Hi) as (r' & Hi' & Hr).
    exists r'. split; [done|].
    destruct Hr as (_ & _ & Hsales & Htot & _ & Hratio). split; [done|].
    apply guarded_ratio_Ok in Hratio.
    destruct (row_key keys r) as [g|] eqn:Hg.
    + assert (r ∈ rows d) as Hin by (apply list_elem_of_lookup; eauto).
      rewrite (joined_group d t r g Ht Hin Hg) in Htot, Hratio.
      simpl in Htot, Hratio. split; [done|].
      case_decide as Hz.
      * split_and!; done.
      * split_and!; [| |done].
        -- intros _ m Hm. by rewrite Hm in Hratio.
        -- intros _ Hm. by rewrite Hm in Hratio.
    + unfold joined in Hratio. by rewrite Hg in Hratio.
  - apply aggregate_total.
Qed.

(** *** Groups of the aggregated frame *)

(** The records of a group of the aggregated frame are the aggregated
    records of the same group of the input, in the same order. *)
Lemma aggregate_groups d out :
  add_aggregated_features d = Ok out →
  ∃ t, groupby_agg keys "Sales" d = Ok t ∧
       ∀ g, Forall2 (λ r r', r ∈ rows d ∧ row_key keys r = Some g ∧
                             aggregated_record d t r r')
                    (group keys g (rows d)) (group keys g (rows out)).
Proof.
  intros (t & Ht & Hrows)%aggregate_records. exists t. split; [done|].
  intros g. unfold group. apply Forall2_in_l in Hrows.
  eapply list.Forall2_impl.
  - apply (Forall2_filter_both _ (λ r, row_key keys r = Some g)
                                 (λ r', row_key keys r' = Some g) _ _) with (2:=Hrows).
    intros r r' [_ Hr]. by rewrite (aggregated_record_key _ _ _ _ Hr).
  - simpl. tauto.
Qed.

(** One record of a group whose measures are numbers: the joined sum is
    the sum of the group's measures, and the ratio follows the guard. *)
Lemma aggregated_record_in_group d t r r' g qs q :
  groupby_agg keys "Sales" d = Ok t →
  r ∈ rows d → row_key keys r = Some g →
  measures "Sales" (group keys g (rows d)) = Some qs →
  r !! "Sales" = Some (Num q) →
  aggregated_record d t r r' →
  r' !! "Sales" = Some (Num q) ∧
  r' !! "total_sales_by_group" = Some (Num (sum_of qs)) ∧
  r' !! "sales_ratio" =
    Some (if decide (sum_of qs = 0%Qc) then num 0 else Num (quotient q (sum_of qs))).
Proof.
  intros Ht Hin Hg Hqs Hq (_ & _ & Hsales & Htot & _ & Hratio).
  rewrite (joined_statistics d t r g qs Ht Hin Hg Hqs) in Htot, Hratio.
  simpl in Htot, Hratio. apply guarded_ratio_Ok in Hratio. rewrite Hq in Hratio.
  split_and!; [by rewrite Hsales|done|].
  by case_decide; rewrite Hratio.
Qed.

(** Sums of the specification. *)
Lemma total_nonneg (qs : list Qc) : Forall (λ q, 0 ≤ q)%Qc qs → (0 ≤ total qs)%Qc.
Proof.
  induction 1 as [|q qs Hq _ IH]; [apply Qcle_refl|].
  unfold total in *. simpl. rewrite <-(Qcplus_0_l 0). by apply Qcplus_le_compat.
Qed.

Lemma total_scaled_le (a s : Qc) (f : Qc → Qc) (qs : list Qc) :
  Forall (λ q, a * q ≤ f q * s)%Qc qs → (a * total qs ≤ total (f <$> qs) * s)%Qc.
Proof.
  induction 1 as [|q qs Hq _ IH].
  - unfold total. simpl. rewrite Qcmult_0_r, Qcmult_0_l. apply Qcle_refl.
  - rewrite fmap_cons. unfold total in *. simpl.
    rewrite Qcmult_plus_distr_r, Qcmult_plus_distr_l. by apply Qcplus_le_compat.
Qed.

Lemma total_scaled_ge (a s : Qc) (f : Qc → Qc) (qs : list Qc) :
  Forall (λ q, f q * s ≤ a * q)%Qc qs → (total (f <$> qs) * s ≤ a * total qs)%Qc.
Proof.
  induction 1 as [|q qs Hq _ IH].
  - unfold total. simpl. rewrite Qcmult_0_r, Qcmult_0_l. apply Qcle_refl.
  - rewrite fmap_cons. unfold total in *. simpl.
    rewrite Qcmult_plus_distr_r, Qcmult_plus_distr_l. by apply Qcplus_le_compat.
Qed.

(** How far from 1 the sum [R] of the ratios can be, when the computed
    sum [s] is within the relative error [v] of the exact sum [S], and
    [R * s] within the relative error [u] of [S]. *)
Lemma ratio_sum_bounds (S s R u v : Qc) :
  (0 ≤ S)%Qc → s ≠ 0%Qc → (u ≤ 1)%Qc → (v < 1)%Qc →
  ((1 - v) * S ≤ s)%Qc → (s ≤ (1 + v) * S)%Qc →
  ((1 - u) * S ≤ R * s)%Qc → (R * s ≤ (1 + u) * S)%Qc →
  (1 - u ≤ R * (1 + v))%Qc ∧ (R * (1 - v) ≤ 1 + u)%Qc.
Proof.
  intros HS Hs Hu Hv Hlo Hhi HRlo HRhi.
  assert (0 < S)%Qc as HSpos.
  { destruct (Qcle_lt_or_eq _ _ HS) as [?|HS0]; [done|]. destruct Hs.
    rewrite <-HS0, Qcmult_0_r in Hlo, Hhi. by apply Qcle_antisym. }
  assert (0 < 1 - v)%Qc as Hv'.
  { unfold Qcminus. by rewrite <-Qclt_minus_iff. }
  assert (0 ≤ 1 - u)%Qc as Hu'.
  { unfold Qcminus. by rewrite <-Qcle_minus_iff. }
  assert (0 < s)%Qc as Hspos.
  { eapply Qclt_le_trans; [|exact Hlo]. by apply Qcmult_pos_pos. }
  assert (0 ≤ R)%Qc as HR.
  { destruct (Qclt_le_dec R 0) as [Hneg|]; [|done].
    apply (Qcmult_lt_compat_r _ _ s) in Hneg; [|done].
    rewrite Qcmult_0_l in Hneg. exfalso.
    apply (Qclt_not_le _ _ Hneg). eapply Qcle_trans; [|exact HRlo].
    apply Qcmult_nonneg_nonneg; [done|]. by apply Qclt_le_weak. }
  split.
  - apply (Qcmult_lt_0_le_reg_r _ _ S); [done|].
    eapply Qcle_trans; [exact HRlo|].
    rewrite <-Qcmult_assoc. by apply Qcmult_le_mono_nonneg_l.
  - apply (Qcmult_lt_0_le_reg_r _ _ S); [done|].
    eapply Qcle_trans; [|exact HRhi].
    rewrite <-Qcmult_assoc. by apply Qcmult_le_mono_nonneg_l.
Qed.

Lemma measures_nonneg (rs : list (gmap string value)) qs :
  Forall clean_measure rs → measures "Sales" rs = Some qs → Forall (λ q, 0 ≤ q)%Qc qs.
Proof.
  unfold measures. intros Hcl. revert qs.
  induction Hcl as [|r rs (q & Hq & Hpos) _ IH]; intros qs.
  - intros [= <-]. constructor.
  - cbn. rewrite Hq. cbn. destruct (mapM _ rs) as [qs'|]; cbn; [|done].
    intros [= <-]. constructor; [done|]. by apply IH.
Qed.

(** C3, amended.  For every GroupKey g, the Records of g in the
    aggregated Dataset have the measures of the Records of g in the
    cleaned input.  When the sum of these measures, as computed, is 0,
    every Record of g has ratio 0.  When it is not 0, the ratio of every
    Record of g is the computed quotient of its measure by that sum, and
    the ratios sum to 1 up to the rounding of the sum and of the
    quotients: if the computed sum is within the relative error v of the
    exact sum, and every quotient, multiplied back, within the relative
    error u of the measure, then the sum R of the ratios satisfies
    1 - u <= R * (1 + v) and R * (1 - v) <= 1 + u; in particular R = 1
    when the sum and the quotients are exact (u = v = 0). *)
Theorem group_ratios_near_one d out g :
  cleaned d → add_aggregated_features d = Ok out →
  ∃ qs,
    measures "Sales" (group keys g (rows d)) = Some qs ∧
    measures "Sales" (group keys g (rows out)) = Some qs ∧
    (sum_of qs = 0%Qc →
     Forall (λ r : gmap string value, r !! "sales_ratio" = Some (num 0))
            (group keys g (rows out))) ∧
    (sum_of qs ≠ 0%Qc →
     let ratios := (λ q, quotient q (sum_of qs)) <$> qs in
     measures "sales_ratio" (group keys g (rows out)) = Some ratios ∧
     ∀ u v : Qc,
       (u ≤ 1)%Qc → (v < 1)%Qc →
       ((1 - v) * total qs ≤ sum_of qs)%Qc → (sum_of qs ≤ (1 + v) * total qs)%Qc →
       Forall (λ q, ((1 - u) * q ≤ quotient q (sum_of qs) * sum_of qs)%Qc ∧
                    (quotient q (sum_of qs) * sum_of qs ≤ (1 + u) * q)%Qc) qs →
       (1 - u ≤ total ratios * (1 + v))%Qc ∧ (total ratios * (1 - v) ≤ 1 + u)%Qc).
Proof.
  intros Hcl Hout.
  destruct (aggregate_groups d out Hout) as (t & Ht & Hgroups). specialize (Hgroups g).
  assert (Forall clean_measure (group keys g (rows d))) as Hclg.
  { unfold group. by apply Forall_filter_keep. }
  destruct (measures_cleaned (group keys g (rows d)) Hclg) as (qs & Hqs & _).
  assert (Forall2 (λ r r' : gmap string value,
            ∃ q, r !! "Sales" = Some (Num q) ∧ r' !! "Sales" = Some (Num q) ∧
                 r' !! "sales_ratio" =
                   Some (if decide (sum_of qs = 0%Qc) then num 0
                         else Num (quotient q (sum_of qs))))
            (group keys g (rows d)) (group keys g (rows out))) as Hrel.
  { eapply list.Forall2_impl; [exact Hgroups|]. intros r r' (Hin & Hg & Hr). simpl.
    unfold cleaned in Hcl. rewrite list.Forall_forall in Hcl.
    destruct (Hcl r Hin) as (q & Hq & _). exists q. split; [done|].
    destruct (aggregated_record_in_group d t r r' g qs q) as (? & _ & ?); done. }
  exists qs. split_and!; [done| | |].
  - rewrite <-(list_fmap_id qs). apply (measures_Forall2 "Sales" _ id _ _ _) with (2:=Hqs).
    eapply list.Forall2_impl; [exact Hrel|]. intros r r' (q & Hq & Hq' & _) q0. simpl.
    rewrite Hq. by intros [= <-].
  - intros Hz. apply list.Forall_forall. intros r' Hr'.
    destruct (Forall2_elem_of_r _ _ _ _ Hrel Hr') as (r & _ & q & _ & _ & Hr).
    by rewrite decide_True in Hr.
  - intros Hnz. simpl. split.
    + apply (measures_Forall2 "Sales" _ _ _ _ _) with (2:=Hqs).
      eapply list.Forall2_impl; [exact Hrel|]. intros r r' (q & Hq & _ & Hr) q0. simpl.
      rewrite Hq. intros [= <-]. by rewrite decide_False in Hr.
    + intros u v Hu Hv Hlo Hhi Hquot.
      apply (ratio_sum_bounds (total qs) (sum_of qs)); try done.
      * apply total_nonneg. by apply (measures_nonneg (group keys g (rows d))).
      * apply total_scaled_le. eapply list.Forall_impl; [exact Hquot|]. by intros q [? _].
      * apply total_scaled_ge. eapply list.Forall_impl; [exact Hquot|]. by intros q [_ ?].
Qed.

(** *** The join and the shape of the result *)

Lemma group_member_measures d r g :
  cleaned d → r ∈ rows d → row_key keys r = Some g →
  ∃ qs, measures "Sales" (group keys g (rows d)) = Some qs ∧
        mean_cell qs = Some (Num (mean_of qs)).
Proof.
  intros Hcl Hr Hg.
  destruct (measures_cleaned (group keys g (rows d))) as (qs & Hqs & Hlen).
  { unfold group. by apply Forall_filter_keep. }
  exists qs. split; [done|]. destruct qs as [|q qs]; [|done].
  assert (r ∈ group keys g (rows d)) as Hin by (by apply list_elem_of_filter).
  destruct (group keys g (rows d)); [by apply elem_of_nil in Hin|done].
Qed.


(** A Record with a null country or segment has no GroupKey: pandas
    leaves it out of every group, the left join finds no statistics for
    it, and its mean, sum and ratio are all missing. *)
Remark record_without_key d out i r :
  add_aggregated_features d = Ok out →
  rows d !! i = Some r → row_key keys r = None →
  ∃ r', rows out !! i = Some r' ∧
        r' !! "avg_sales_by_group" = None ∧
        r' !! "total_sales_by_group" = None ∧
        r' !! "sales_ratio" = None.
Proof.
  intros Hout Hr Hkey.
  destruct (aggregate_records d out Hout) as (t & Ht & Hrows).
  destruct (Forall2_lookup_l _ _ _ _ _ Hrows Hr) as (r' & Hr' & Hagg).
  exists r'. split; [done|].
  destruct Hagg as (_ & _ & _ & Htot & Havg & Hratio).
  apply guarded_ratio_Ok in Hratio.
  unfold joined in Htot, Havg, Hratio. rewrite Hkey in Htot, Havg, Hratio.
  split_and!; [|done..]. by case_bool_decide.
Qed.

(** C10, amended.  For every input Dataset with the required columns, a
    measure column of numbers and nulls, and no column already labelled
    avg_sales_by_group, total_sales_by_group or sales_ratio, the output
    has the same number of Records in the same order, every cell of every
    pre-existing column is unchanged, and exactly three columns are added
    after the existing ones: the group mean, the group sum and the
    ratio. *)
Theorem aggregator_frame d :
  required_columns d → numeric_measure d →
  "avg_sales_by_group" ∉ columns d → "total_sales_by_group" ∉ columns d →
  "sales_ratio" ∉ columns d →
  ∃ out,
    add_aggregated_features d = Ok out ∧
    columns out =
      columns d ++ ["avg_sales_by_group"; "total_sales_by_group"; "sales_ratio"] ∧
    length (rows out) = length (rows d) ∧
    ∀ i r, rows d !! i = Some r →
      ∃ r', rows out !! i = Some r' ∧ ∀ c, c ∈ columns d → r' !! c = r !! c.
Proof.
  intros Hreq Hnum Ha Hs Hr.
  destruct (aggregate_total d Hreq Hnum Ha Hs) as [out Hout]. exists out.
  split; [done|].
  destruct (aggregate_positions d out Ha Hout) as (t & Ht & Hlen & Hpos).
  apply aggregate_inv in Hout as (_ & _ & _ & _ & Hcols & _); [|done].
  rewrite bool_decide_eq_false_2 in Hcols by done.
  split_and!; [done..|].
  intros i r Hi. destruct (Hpos i r Hi) as (r' & Hr' & Hagg).
  exists r'. split; [done|]. intros c Hc.
  apply aggregated_row_cells in Hagg as (_ & _ & _ & Hother).
  apply Hother; by intros ->.
Qed.

End Aggregator_properties.

(** *** The Aggregator on the sample data, in binary64 *)

Lemma sales_ratio_guarded_witness :
  add_aggregated_features scenario_cleaned ≠ Raise ZeroDivisionError ∧
  length (rows scenario_aggregated) = length (rows scenario_cleaned) ∧
  (∃ r', rows scenario_aggregated !! 1%nat = Some r' ∧
         r' !! "total_sales_by_group" = Some (num 10) ∧
         r' !! "sales_ratio" = Some (num 1)) ∧
  ∃ out, add_aggregated_features scenario_cleaned = Ok out.
Proof.
  destruct (sales_ratio_guarded scenario_cleaned) as (Hz & Hratio & Htotal).
  destruct (Hratio scenario_aggregated) as [Hlen Hpos]; [by_evaluation|].
  destruct (Hpos 1%nat (record (Some (num 10)) "A" "X")) as (r' & Hr' & _ & Hkey);
    [reflexivity|].
  split_and!; [done|done| |].
  - exists r'. split; [done|].
    replace (row_key keys (record (Some (num 10)) "A" "X"))
      with (Some [Str "A"; Str "X"]) in Hkey by by_evaluation.
    cbv zeta in Hkey.
    replace (sum_of (present_numbers "Sales"
                       (group keys [Str "A"; Str "X"] (rows scenario_cleaned))))
      with (Qc_of_Z 10) in Hkey by by_evaluation.
    destruct Hkey as (Htot & Hq & _ & _). split; [done|].
    rewrite (Hq ltac:(by_evaluation) (Qc_of_Z 10)) by by_evaluation.
    by_evaluation.
  - apply Htotal.
    + unfold required_columns. split_and!; by_evaluation.
    + repeat constructor; intros s; vm_compute; discriminate.
    + by_evaluation.
    + by_evaluation.
Defined.

Example aggregate_sixths : add_aggregated_features sixths = Ok sixths_aggregated.
Proof. by_evaluation. Qed.

(** The ratios of six equal measures neither sum to 1 exactly nor when
    they are added up in binary64. *)
Example sixths_sum :
  total (replicate 6 sixth) = Q2Qc (18014398509481983 # 18014398509481984) ∧
  sum_of (replicate 6 sixth) = Q2Qc (9007199254740991 # 9007199254740992).
Proof. split; by_evaluation. Qed.

(** C3, the claim as it stands, refuted: in binary64 the ratios of six
    Records with measure 1 are six times the float next to one sixth,
    which do not sum to 1. *)
Lemma group_ratios_sum_to_one_fails :
  ¬ (∀ d out g,
       cleaned d → add_aggregated_features d = Ok out →
       ∃ qs,
         measures "Sales" (group keys g (rows out)) = Some qs ∧
         ((0 < total qs)%Qc →
          ∃ ratios, measures "sales_ratio" (group keys g (rows out)) = Some ratios ∧
                    total ratios = 1%Qc) ∧
         (total qs = 0%Qc →
          Forall (λ r : gmap string value, r !! "sales_ratio" = Some (num 0))
                 (group keys g (rows out)))).
Proof.
  intros Hclaim.
  destruct (Hclaim sixths sixths_aggregated [Str "A"; Str "X"]) as (qs & Hqs & Hpos & _).
  - repeat constructor; eexists; (split; [reflexivity|by_evaluation]).
  - by_evaluation.
  - replace (measures "Sales" (group keys [Str "A"; Str "X"] (rows sixths_aggregated)))
      with (Some (replicate 6 (Qc_of_Z 1))) in Hqs by by_evaluation.
    injection Hqs as <-.
    destruct Hpos as (ratios & Hratios & Hsum); [by_evaluation|].
    replace (measures "sales_ratio"
               (group keys [Str "A"; Str "X"] (rows sixths_aggregated)))
      with (Some (replicate 6 sixth)) in Hratios by by_evaluation.
    injection Hratios as <-.
    assert (total (replicate 6 sixth) ≠ 1%Qc) as Hne by by_evaluation.
    by destruct Hne.
Qed.

Lemma group_ratios_near_one_witness :
  ∃ ratios,
    measures "sales_ratio" (group keys [Str "A"; Str "X"] (rows sixths_aggregated))
      = Some ratios ∧
    (1 - unit_roundoff ≤ total ratios * (1 + 0))%Qc ∧
    (total ratios * (1 - 0) ≤ 1 + unit_roundoff)%Qc.
Proof.
  destruct (group_ratios_near_one sixths sixths_aggregated [Str "A"; Str "X"])
    as (qs & Hqs & _ & _ & Hnz).
  - repeat constructor; eexists; (split; [reflexivity|by_evaluation]).
  - by_evaluation.
  - replace (measures "Sales" (group keys [Str "A"; Str "X"] (rows sixths)))
      with (Some (replicate 6 (Qc_of_Z 1))) in Hqs by by_evaluation.
    injection Hqs as <-.
    destruct Hnz as [Hratios Hbounds]; [by_evaluation|].
    eexists. split; [exact Hratios|].
    apply (Hbounds unit_roundoff 0%Qc); by_evaluation.
Defined.

(** In a column of 64-bit integers the sum of a group can wrap around:
    two measures of 2^62 sum to -2^63, and each ratio is -1/2. *)
Example aggregate_wrapped :
  add_aggregated_features (arithmetic := int64) wrapped = Ok wrapped_aggregated.
Proof. by_evaluation. Qed.

(** A group whose measures sum to 0: every ratio is 0, not an error and
    not a missing value. *)
Example aggregate_zero_group :
  add_aggregated_features
    {| columns := ["Sales"; "Country"; "Segment"];
       rows := [record (Some (num 0)) "B" "Y"; record (Some (num 0)) "B" "Y"] |} =
  Ok {| columns := ["Sales"; "Country"; "Segment"; "avg_sales_by_group";
                    "total_sales_by_group"; "sales_ratio"];
        rows := [aggregated (Some (num 0)) "B" "Y" (Some (num 0)) (Some (num 0)) (Some (num 0));
                 aggregated (Some (num 0)) "B" "Y" (Some (num 0)) (Some (num 0)) (Some (num 0))] |}.
Proof. by_evaluation. Qed.


(** A cleaned frame that has a column avg_sales_by_group: the result has
    no column of that label any more. *)
Example aggregate_averaged : add_aggregated_features averaged = Ok averaged_aggregated.
Proof. by_evaluation. Qed.



Example aggregate_rated : add_aggregated_features rated = Ok rated_aggregated.
Proof. by_evaluation. Qed.

(** C10, the claim as it stands, refuted: on a Dataset with the required
    columns that already has a column labelled sales_ratio, the values of
    that column are overwritten and only two columns are added. *)
Lemma aggregator_frame_fails :
  ¬ (∀ d out,
       required_columns d → add_aggregated_features d = Ok out →
       length (rows out) = length (rows d) ∧
       (∀ i r r' c, rows d !! i = Some r → rows out !! i = Some r' →
                    c ∈ columns d → r' !! c = r !! c) ∧
       length (columns out) = length (columns d) + 3).
Proof.
  intros Hframe.
  destruct (Hframe rated rated_aggregated) as (_ & Hcells & Hcols).
  - unfold required_columns. split_and!; by_evaluation.
  - by_evaluation.
  - vm_compute in Hcols. discriminate Hcols.
Qed.

Example aggregate_rated_overwrites :
  ∃ r r', rows rated !! 0%nat = Some r ∧ rows rated_aggregated !! 0%nat = Some r' ∧
          r !! "sales_ratio" = Some (num 7) ∧ r' !! "sales_ratio" = Some (num 1).
Proof. eexists _, _. split_and!; reflexivity. Qed.

Lemma aggregator_frame_witness :
  ∃ out,
    add_aggregated_features scenario_cleaned = Ok out ∧
    columns out =
      columns scenario_cleaned ++
      ["avg_sales_by_group"; "total_sales_by_group"; "sales_ratio"] ∧
    length (rows out) = length (rows scenario_cleaned) ∧
    ∀ i r, rows scenario_cleaned !! i = Some r →
      ∃ r', rows out !! i = Some r' ∧ ∀ c, c ∈ columns scenario_cleaned → r' !! c = r !! c.
Proof.
  apply (aggregator_frame scenario_cleaned).
  - unfold required_columns. split_and!; by_evaluation.
  - repeat constructor; intros s; vm_compute; discriminate.
  - by_evaluation.
  - by_evaluation.
  - by_evaluation.
Defined.

(** ** Loading: what [main] does when the source cannot be fetched *)

Section Loading_properties.
Context {arithmetic : Arithmetic}.

(** With [requests] (and [io]) in the namespace, a failed fetch is
    reported with [st.error], the local [data] is never assigned, and the
    run stops at the hand-over to [clean_data] with [UnboundLocalError]:
    neither the Cleaner nor anything after it is called. *)
Lemma main_fetch_failure_imported globals requests_get read_excel presenter st f :
  (∀ x, x ∈ module_globals → x ∈ globals) → "requests" ∈ globals →
  (requests_get github_url = inl f ∨
   ∃ status body, requests_get github_url = inr (status, body) ∧
                  (400 ≤ status < 600)%Z ∧ f = HTTPError status) →
  main globals requests_get read_excel presenter st =
  (Raise (UnboundLocalError "data"),
   {| heap := heap st;
      page := page st ++ banner ++ [st_error (RequestException f)] |}).
Proof.
  intros Hmod Hreq Hfail.
  assert ("st" ∈ globals) as Hst by (apply Hmod; by_evaluation).
  assert ("clean_data" ∈ globals) as Hclean by (apply Hmod; by_evaluation).
  unfold main, st_call, call, global, try_except, bind, emit.
  rewrite !(bool_decide_eq_true_2 _ Hst), !(bool_decide_eq_true_2 _ Hreq),
    !(bool_decide_eq_true_2 _ Hclean).
  cbn [ret raise lift local_var heap page].
  destruct Hfail as [->|(status & body & -> & Hstatus & ->)].
  - cbn. by rewrite <-!app_assoc.
  - unfold raise_for_status. cbn [fst]. rewrite (bool_decide_eq_true_2 _ Hstatus).
    cbn. by rewrite <-!app_assoc.
Qed.

(** C1 on the program as it is written.  [requests] is not among the
    names the module binds, so evaluating [requests.get] raises
    [NameError]; the [except] clause has to evaluate
    [requests.exceptions.RequestException] to see whether it matches, and
    raises [NameError] again.  Whatever the source would have answered,
    [main] ends with that exception after the banner: [st.error] is not
    called, no Dataset is produced, and neither the Cleaner, the
    Aggregator nor the charts run. *)
Theorem main_fetch_failure_unreported requests_get read_excel presenter st :
  main module_globals requests_get read_excel presenter st =
  (Raise (NameError "requests"),
   {| heap := heap st; page := page st ++ banner |}).
Proof.
  unfold main, st_call, call, global, try_except, bind, emit. simpl.
  by rewrite <-!app_assoc.
Qed.

Example main_unreachable read_excel presenter :
  main module_globals unreachable read_excel presenter {| heap := []; page := [] |} =
  (Raise (NameError "requests"), {| heap := []; page := banner |}).
Proof. reflexivity. Qed.

(** The same run when the source answers with an error status. *)
Example main_not_found read_excel presenter :
  main module_globals (λ _, inr (404%Z, "Not Found")) read_excel presenter
       {| heap := []; page := [] |} =
  (Raise (NameError "requests"), {| heap := []; page := banner |}).
Proof. reflexivity. Qed.

End Loading_properties.

(** ** A record without GroupKey, by evaluation *)

Example aggregate_missing_country :
  add_aggregated_features
    {| columns := ["Sales"; "Country"; "Segment"];
       rows := [record (Some (num 10)) "A" "X";
                set_cell "Sales" (Some (num 4)) (<["Segment" := Str "X"]> ∅)] |} =
  Ok {| columns := ["Sales"; "Country"; "Segment"; "avg_sales_by_group";
                    "total_sales_by_group"; "sales_ratio"];
        rows := [aggregated (Some (num 10)) "A" "X" (Some (num 10)) (Some (num 10)) (Some (num 1));
                 set_cell "Sales" (Some (num 4)) (<["Segment" := Str "X"]> ∅)] |}.
Proof. by_evaluation. Qed.

(** * Further properties of the program *)

(** ** The Cleaner: order, count, and failure *)

Lemma replace_null_other name (r : gmap string value) :
  name ≠ "Sales" → replace_null r !! name = r !! name.
Proof.
  intros. unfold replace_null. destruct (r !! "Sales"); [done|].
  by rewrite lookup_insert_ne.
Qed.

Lemma negative_replace_null (r : gmap string value) :
  negative (replace_null r) = negative r.
Proof.
  unfold negative. rewrite replace_null_lookup.
  by destruct (r !! "Sales") as [[q|s]|].
Qed.

Lemma clean_data_returns st df d :
  heap st !! df = Some d → "Sales" ∈ columns d → numeric_measure d →
  ∃ st', clean_data df st = (Ok (length (heap st)), st') ∧
         heap st' !! length (heap st) = Some (cleaner_contract d) ∧
         page st' = page st.
Proof.
  intros Hd Hc Hn. eexists. split; [by apply clean_data_numeric|]. simpl.
  split; [|done]. rewrite lookup_app_r by (by rewrite length_insert).
  by rewrite length_insert, Nat.sub_diag.
Qed.

(** X1. The Cleaner keeps the column labels, keeps the surviving Records
    in the order of the input, and changes no cell outside the measure
    column. *)
Theorem clean_data_keeps_order st df d :
  heap st !! df = Some d → "Sales" ∈ columns d → numeric_measure d →
  ∃ ref st' out,
    clean_data df st = (Ok ref, st') ∧ heap st' !! ref = Some out ∧
    columns out = columns d ∧
    rows out `sublist_of` (replace_null <$> rows d) ∧
    ∀ r', r' ∈ rows out →
          ∃ r, r ∈ rows d ∧ ∀ c, c ≠ "Sales" → r' !! c = r !! c.
Proof.
  intros Hd Hc Hn. destruct (clean_data_returns st df d Hd Hc Hn) as (st' & Hrun & Hout & _).
  exists (length (heap st)), st', (cleaner_contract d). split_and!; try done.
  - simpl. apply sublist_filter.
  - simpl. intros r' [_ (r & -> & Hr)%list_elem_of_fmap]%list_elem_of_filter.
    exists r. split; [done|]. intros c Hne. by apply replace_null_other.
Qed.

Lemma clean_data_keeps_order_witness :
  ∃ ref st' out,
    clean_data 0 (initial scenario) = (Ok ref, st') ∧ heap st' !! ref = Some out ∧
    columns out = columns scenario ∧
    rows out `sublist_of` (replace_null <$> rows scenario) ∧
    ∀ r', r' ∈ rows out →
          ∃ r, r ∈ rows scenario ∧ ∀ c, c ≠ "Sales" → r' !! c = r !! c.
Proof.
  apply (clean_data_keeps_order (initial scenario) 0 scenario).
  - reflexivity.
  - by_evaluation.
  - repeat constructor; intros s; vm_compute; discriminate.
Defined.

(** X2. The Cleaner removes exactly the Records with a negative measure:
    the Records returned and the Records of the input with a negative
    measure are together as many as the Records of the input. *)
Theorem clean_data_count st df d :
  heap st !! df = Some d → "Sales" ∈ columns d → numeric_measure d →
  ∃ ref st' out,
    clean_data df st = (Ok ref, st') ∧ heap st' !! ref = Some out ∧
    length (rows out) + length (filter (λ r, negative r = true) (rows d)) =
    length (rows d).
Proof.
  intros Hd Hc Hn. destruct (clean_data_returns st df d Hd Hc Hn) as (st' & Hrun & Hout & _).
  exists (length (heap st)), st', (cleaner_contract d). split_and!; try done.
  simpl. generalize (rows d). clear. intros l.
  induction l as [|r l IH]; [done|].
  rewrite fmap_cons, !filter_cons, negative_replace_null.
  destruct (negative r); simpl in *; lia.
Qed.

Lemma clean_data_count_witness :
  ∃ ref st' out,
    clean_data 0 (initial scenario) = (Ok ref, st') ∧ heap st' !! ref = Some out ∧
    length (rows out) + length (filter (λ r, negative r = true) (rows scenario)) =
    length (rows scenario).
Proof.
  apply (clean_data_count (initial scenario) 0 scenario).
  - reflexivity.
  - by_evaluation.
  - repeat constructor; intros s; vm_compute; discriminate.
Defined.

Lemma ge_zero_Raise c e : ge_zero c = Raise e → e = TypeError ∧ ∃ s, c = Some (Str s).
Proof. destruct c as [[q|s]|]; simpl; try done. intros [= <-]. eauto. Qed.

Lemma series_ge_zero_text d :
  ¬ numeric_measure d →
  series_ge_zero (getitem "Sales" (replace_nulls d)) = Raise TypeError.
Proof.
  intros Hn. unfold series_ge_zero, getitem. rewrite mapM_fmap.
  destruct (mapM _ _) as [mask|e] eqn:Hm.
  - destruct Hn. apply mapM_Ok_inv in Hm. simpl in Hm.
    apply Forall2_fmap_l in Hm. unfold numeric_measure.
    apply list.Forall_forall. intros r Hr s Hs.
    apply list_elem_of_lookup in Hr as [i Hi].
    destruct (Forall2_lookup_l _ _ _ _ _ Hm Hi) as (b & _ & Hb). simpl in Hb.
    rewrite replace_null_lookup, Hs in Hb. done.
  - apply mapM_Raise, Exists_exists in Hm as (r & _ & Hr).
    by apply ge_zero_Raise in Hr as [-> _].
Qed.

(** X3. When the measure column holds a value that is not a number, the
    Cleaner raises [TypeError]; by then it has already written the
    null-filled measure column into the caller's Dataset, and it has
    created no Dataset. *)
Theorem clean_data_type_error st df d :
  heap st !! df = Some d → "Sales" ∈ columns d → ¬ numeric_measure d →
  clean_data df st =
  (Raise TypeError, {| heap := <[df := replace_nulls d]> (heap st); page := page st |}).
Proof.
  intros Hd Hc Hn. rewrite (clean_data_run _ _ _ Hd Hc).
  by rewrite series_ge_zero_text.
Qed.

Lemma clean_data_type_error_witness :
  clean_data 0 (initial mistyped) =
  (Raise TypeError,
   {| heap := <[0%nat := replace_nulls mistyped]> (heap (initial mistyped));
      page := page (initial mistyped) |}).
Proof.
  apply (clean_data_type_error (initial mistyped) 0 mistyped).
  - reflexivity.
  - by_evaluation.
  - intros Hn. unfold numeric_measure in Hn. rewrite list.Forall_forall in Hn.
    apply (Hn (record (Some (Str "n/a")) "A" "X")) with (s := "n/a").
    + by_evaluation.
    + reflexivity.
Defined.

(** ** The Aggregator: errors and statistics *)

Section Aggregator_further.
Context {arithmetic : Arithmetic}.



Lemma aggregated_from d out r' :
  add_aggregated_features d = Ok out → r' ∈ rows out →
  ∃ t r, groupby_agg keys "Sales" d = Ok t ∧ r ∈ rows d ∧ aggregated_record d t r r'.
Proof.
  intros (t & Ht & Hrows)%aggregate_records Hr'.
  destruct (Forall2_elem_of_r _ _ _ _ Hrows Hr') as (r & Hr & Hagg). eauto.
Qed.

(** X7. Whatever the input, two Records of the aggregated Dataset with
    the same country and segment carry the same group mean and the same
    group sum. *)
Theorem same_group_same_statistics d out r1 r2 :
  add_aggregated_features d = Ok out → r1 ∈ rows out → r2 ∈ rows out →
  row_key keys r1 = row_key keys r2 →
  r1 !! "avg_sales_by_group" = r2 !! "avg_sales_by_group" ∧
  r1 !! "total_sales_by_group" = r2 !! "total_sales_by_group".
Proof.
  intros Hout H1 H2 Hkey.
  destruct (aggregated_from d out r1 Hout H1) as (t & s1 & Ht & _ & Hagg1).
  destruct (aggregated_from d out r2 Hout H2) as (t' & s2 & Ht' & _ & Hagg2).
  rewrite Ht in Ht'. injection Ht' as <-.
  rewrite (aggregated_record_key _ _ _ _ Hagg1),
    (aggregated_record_key _ _ _ _ Hagg2) in Hkey.
  destruct Hagg1 as (_ & _ & _ & Htot1 & Havg1 & _).
  destruct Hagg2 as (_ & _ & _ & Htot2 & Havg2 & _).
  rewrite Htot1, Htot2, Havg1, Havg2. unfold joined. by rewrite Hkey.
Qed.

(** ** The Cleaner and the Aggregator in sequence *)

Lemma cleaner_contract_length d :
  length (rows (cleaner_contract d)) = length (filter (λ r, negative r = false) (rows d)).
Proof.
  simpl. induction (rows d) as [|r l IH]; [done|].
  rewrite fmap_cons, !filter_cons, negative_replace_null.
  destruct (negative r); simpl; [done|by rewrite IH].
Qed.

(** X9. On a Dataset with the required columns, a measure column of
    numbers and nulls and free labels for the joined columns, cleaning
    and then aggregating always succeeds; the result has one Record for
    every Record of the input whose measure is not negative, and every
    measure in it is a number greater than or equal to 0. *)
Theorem clean_then_aggregate st df d :
  heap st !! df = Some d → required_columns d → numeric_measure d →
  "avg_sales_by_group" ∉ columns d → "total_sales_by_group" ∉ columns d →
  ∃ ref st' c out,
    clean_data df st = (Ok ref, st') ∧ heap st' !! ref = Some c ∧
    add_aggregated_features c = Ok out ∧
    length (rows out) = length (filter (λ r, negative r = false) (rows d)) ∧
    cleaned out.
Proof.
  intros Hd Hreq Hnum Ha Ht.
  destruct (clean_data_returns st df d Hd) as (st' & Hrun & Hout & _); [apply Hreq|done|].
  pose proof (contract_is_cleaned d Hnum) as Hcl.
  destruct (aggregate_total (cleaner_contract d)) as [out Hagg]; try done.
  { by apply cleaned_numeric. }
  exists (length (heap st)), st', (cleaner_contract d), out. split_and!; try done.
  - destruct (aggregate_positions (cleaner_contract d) out Ha Hagg) as (_ & _ & Hlen & _).
    by rewrite Hlen, cleaner_contract_length.
  - unfold cleaned in *. rewrite list.Forall_forall in *. intros r' Hr'.
    destruct (aggregated_from _ _ r' Hagg Hr') as (t & r & _ & Hr & Hrow).
    destruct (Hcl r Hr) as (q & Hq & Hge). exists q. split; [|done].
    destruct Hrow as (_ & _ & Hsales & _). by rewrite Hsales.
Qed.

End Aggregator_further.

(** *** On the sample data *)


Lemma same_group_same_statistics_witness :
  aggregated (Some (num 0)) "A" "X" (Some (num 5)) (Some (num 10)) (Some (num 0))
    !! "avg_sales_by_group" =
  aggregated (Some (num 10)) "A" "X" (Some (num 5)) (Some (num 10)) (Some (num 1))
    !! "avg_sales_by_group" ∧
  aggregated (Some (num 0)) "A" "X" (Some (num 5)) (Some (num 10)) (Some (num 0))
    !! "total_sales_by_group" =
  aggregated (Some (num 10)) "A" "X" (Some (num 5)) (Some (num 10)) (Some (num 1))
    !! "total_sales_by_group".
Proof.
  apply (same_group_same_statistics scenario_cleaned scenario_aggregated).
  - by_evaluation.
  - by_evaluation.
  - by_evaluation.
  - reflexivity.
Defined.

(** An uncleaned frame: the ratios of a refund and a sale. *)
Example aggregate_refunds : add_aggregated_features refunds = Ok refunds_aggregated.
Proof. by_evaluation. Qed.

Lemma clean_then_aggregate_witness :
  ∃ ref st' c out,
    clean_data 0 (initial scenario) = (Ok ref, st') ∧ heap st' !! ref = Some c ∧
    add_aggregated_features c = Ok out ∧
    length (rows out) = length (filter (λ r, negative r = false) (rows scenario)) ∧
    cleaned out.
Proof.
  apply (clean_then_aggregate (initial scenario) 0 scenario).
  - reflexivity.
  - unfold required_columns. split_and!; by_evaluation.
  - repeat constructor; intros s; vm_compute; discriminate.
  - by_evaluation.
  - by_evaluation.
Defined.

(** ** [main] in a namespace where [requests] and [io] are bound *)

Section Main_properties.
Context {arithmetic : Arithmetic}.

Lemma st_call_run globals e st :
  "st" ∈ globals →
  st_call globals e st = (Ok (), {| heap := heap st; page := page st ++ [e] |}).
Proof.
  intros Hst. unfold st_call, bind, global. by rewrite (bool_decide_eq_true_2 _ Hst).
Qed.


Lemma insert_last {A} (l : list A) (x y : A) :
  <[length l := y]> (l ++ [x]) = l ++ [y].
Proof. induction l as [|z l IH]; [done|]. simpl. by rewrite IH. Qed.

Lemma lookup_last {A} (l : list A) (x : A) : (l ++ [x]) !! length l = Some x.
Proof. by rewrite lookup_app_r, Nat.sub_diag. Qed.

Lemma bind_run {A B} (m : M A) (k : A → M B) st a st' :
  m st = (Ok a, st') → bind m k st = k a st'.
Proof. intros H. unfold bind. by rewrite H. Qed.

Lemma bind_fail {A B} (m : M A) (k : A → M B) st e st' :
  m st = (Raise e, st') → bind m k st = (Raise e, st').
Proof. intros H. unfold bind. by rewrite H. Qed.



(** X11. With [requests] bound, a failed fetch (a transport failure or
    an error status) is reported with [st.error], but [main] does not
    stop there: it goes on to evaluate [clean_data(data)] with [data]
    unassigned and ends with [UnboundLocalError], before the Cleaner is
    entered. *)
Theorem main_falls_through globals requests_get read_excel presenter st f :
  (∀ x, x ∈ module_globals → x ∈ globals) → "requests" ∈ globals →
  (requests_get github_url = inl f ∨
   ∃ status body, requests_get github_url = inr (status, body) ∧
                  (400 ≤ status < 600)%Z ∧ f = HTTPError status) →
  main globals requests_get read_excel presenter st =
  (Raise (UnboundLocalError "data"),
   {| heap := heap st;
      page := page st ++ banner ++ [st_error (RequestException f)] |}).
Proof. apply main_fetch_failure_imported. Qed.

(** X12. The handler of [main] catches request failures only: an
    exception of another kind raised while the body is parsed leaves
    [main] as it is, without [st.error] and before any Dataset exists. *)
Theorem main_parse_failure_uncaught globals requests_get read_excel presenter st
    status body e :
  (∀ x, x ∈ module_globals → x ∈ globals) →
  "requests" ∈ globals → "io" ∈ globals →
  requests_get github_url = inr (status, body) → ¬ (400 ≤ status < 600)%Z →
  read_excel body = Raise e → (∀ f, e ≠ RequestException f) →
  main globals requests_get read_excel presenter st =
  (Raise e, {| heap := heap st; page := page st ++ banner |}).
Proof.
  intros Hmod Hreq Hio Hget Hstatus Hread He.
  assert ("st" ∈ globals) as Hst by (apply Hmod; by_evaluation).
  assert ("pd" ∈ globals) as Hpd by (apply Hmod; by_evaluation).
  unfold main.
  do 3 (erewrite bind_run; [|by apply st_call_run]). cbn [heap page].
  erewrite bind_fail; cycle 1.
  { unfold try_except, bind, global, lift, alloc, ret, raise.
    rewrite (bool_decide_eq_true_2 _ Hreq), Hget. cbn [fst snd].
    unfold raise_for_status. rewrite (bool_decide_eq_false_2 _ Hstatus).
    rewrite (bool_decide_eq_true_2 _ Hpd), (bool_decide_eq_true_2 _ Hio), Hread.
    destruct e; try reflexivity. by destruct (He f). }
  unfold banner. by rewrite <-!app_assoc.
Qed.

End Main_properties.

(** *** On the sample data *)


Lemma main_falls_through_witness :
  main imported_globals (answers 404 "Not Found") (λ _, Ok scenario) (λ _, [])
       {| heap := []; page := [] |} =
  (Raise (UnboundLocalError "data"),
   {| heap := [];
      page := [] ++ banner ++ [st_error (RequestException (HTTPError 404))] |}).
Proof.
  apply (main_falls_through imported_globals (answers 404 "Not Found") (λ _, Ok scenario)
           (λ _, []) {| heap := []; page := [] |} (HTTPError 404)).
  - intros x Hx. unfold imported_globals. by do 2 right.
  - by_evaluation.
  - right. exists 404%Z, "Not Found". split_and!; [reflexivity|lia..|reflexivity].
Defined.

Lemma main_parse_failure_uncaught_witness :
  main imported_globals (answers 200 "data") (λ _, Raise ParserError) (λ _, [])
       {| heap := []; page := [] |} =
  (Raise ParserError, {| heap := []; page := [] ++ banner |}).
Proof.
  apply (main_parse_failure_uncaught imported_globals (answers 200 "data")
           (λ _, Raise ParserError) (λ _, []) {| heap := []; page := [] |} 200 "data").
  - intros x Hx. unfold imported_globals. by do 2 right.
  - by_evaluation.
  - by_evaluation.
  - reflexivity.
  - by_evaluation.
  - reflexivity.
  - done.
Defined.

(** ** [load_data] *)

(** The run of a first load. *)
Lemma load_data_first_call_run read_excel parse_datetime cache file_path st d :
  cache !! file_path = None → read_excel file_path = Ok d →
  ∃ d',
    d' = (if bool_decide ("Date" ∈ columns d)
          then setitem "Date" (to_datetime parse_datetime (getitem "Date" d)) d
          else d) ∧
    load_data read_excel parse_datetime cache file_path st =
      (Ok (length (heap st), <[file_path := d']> cache),
       {| heap := heap st ++ [d']; page := page st |}).
Proof.
  intros Hmiss Hread. eexists. split; [done|]. unfold load_data. rewrite Hmiss.
  case_bool_decide as Hdate.
  - erewrite bind_run; cycle 1.
    { unfold load_data_body. erewrite bind_run; [|unfold lift; by rewrite Hread].
      erewrite bind_run; [|reflexivity].
      rewrite (bool_decide_eq_true_2 _ Hdate).
      erewrite bind_run; [|reflexivity]. reflexivity. }
    cbn [heap page]. rewrite insert_last.
    erewrite bind_run; [|unfold load; cbn [heap]; by rewrite lookup_last].
    reflexivity.
  - erewrite bind_run; cycle 1.
    { unfold load_data_body. erewrite bind_run; [|unfold lift; by rewrite Hread].
      erewrite bind_run; [|reflexivity].
      rewrite (bool_decide_eq_false_2 _ Hdate). reflexivity. }
    cbn [heap page].
    erewrite bind_run; [|unfold load; cbn [heap]; by rewrite lookup_last].
    reflexivity.
Qed.

(** X13. The first load of a file returns a new Dataset with the columns
    and the Records of the file as parsed, in which only the cells of a
    Date column are rewritten: each holds the parsed date, or nothing
    when the cell was empty or could not be parsed.  No such cell makes
    the load fail, and without a Date column the Dataset is the parsed
    one. *)
Theorem load_data_first_call read_excel parse_datetime cache file_path st d :
  cache !! file_path = None → read_excel file_path = Ok d →
  ∃ d',
    load_data read_excel parse_datetime cache file_path st =
      (Ok (length (heap st), <[file_path := d']> cache),
       {| heap := heap st ++ [d']; page := page st |}) ∧
    columns d' = columns d ∧
    length (rows d') = length (rows d) ∧
    ("Date" ∉ columns d → d' = d) ∧
    ∀ i r, rows d !! i = Some r →
      ∃ r', rows d' !! i = Some r' ∧
            (∀ c, c ≠ "Date" → r' !! c = r !! c) ∧
            ("Date" ∈ columns d →
             r' !! "Date" = r !! "Date" ≫= parse_datetime (getitem "Date" d)).
Proof.
  intros Hmiss Hread.
  destruct (load_data_first_call_run read_excel parse_datetime cache file_path st d
              Hmiss Hread) as (d' & Hd' & Hrun).
  exists d'. split; [done|]. clear Hrun. case_bool_decide as Hdate; subst d'.
  - split_and!.
    + unfold setitem. simpl. by rewrite (bool_decide_eq_true_2 _ Hdate).
    + unfold to_datetime, getitem. rewrite <-list_fmap_compose, setitem_rows.
      by rewrite length_fmap.
    + done.
    + intros i r Hr. unfold to_datetime, getitem.
      rewrite <-list_fmap_compose, setitem_rows, list_lookup_fmap, Hr. simpl.
      eexists. split; [done|]. split.
      * intros c Hc. by rewrite lookup_set_cell_ne.
      * intros _. by rewrite lookup_set_cell.
  - split_and!; try done. intros i r Hr. exists r. by split_and!.
Qed.

Lemma load_data_first_call_witness :
  ∃ d',
    load_data (λ _, Ok dated) ten_characters ∅ "data.xlsx" (initial scenario) =
      (Ok (length (heap (initial scenario)), <["data.xlsx" := d']> ∅),
       {| heap := heap (initial scenario) ++ [d']; page := page (initial scenario) |}) ∧
    columns d' = columns dated ∧
    length (rows d') = length (rows dated) ∧
    ("Date" ∉ columns dated → d' = dated) ∧
    ∀ i r, rows dated !! i = Some r →
      ∃ r', rows d' !! i = Some r' ∧
            (∀ c, c ≠ "Date" → r' !! c = r !! c) ∧
            ("Date" ∈ columns dated →
             r' !! "Date" = r !! "Date" ≫= ten_characters (getitem "Date" dated)).
Proof.
  apply (load_data_first_call (λ _, Ok dated) ten_characters ∅ "data.xlsx"
           (initial scenario) dated).
  - reflexivity.
  - reflexivity.
Defined.

(** The unparsable date of the sample becomes a missing cell. *)
Example load_dated :
  ∃ cache st',
    load_data (λ _, Ok dated) ten_characters ∅ "data.xlsx" {| heap := []; page := [] |} =
      (Ok (0%nat, cache), st') ∧
    heap st' !! 0%nat =
      Some {| columns := ["Date"; "Sales"];
              rows := [<["Date" := Str "2024-01-31"]> (<["Sales" := num 10]> ∅); ∅] |}.
Proof.
  destruct (load_data_first_call_run (λ _, Ok dated) ten_characters ∅ "data.xlsx"
              {| heap := []; page := [] |} dated) as (d' & Hd' & Hrun); [done..|].
  eexists _, _. split; [exact Hrun|]. simpl. f_equal. subst d'. by_evaluation.
Qed.

(** Load, clean, load again: the second load still has the null and the
    negative measure. *)
Example load_clean_load :
  ∃ cache st3,
    load_data (λ _, Ok scenario) ten_characters ∅ "data.xlsx" {| heap := []; page := [] |}
      = (Ok (0%nat, cache), initial scenario) ∧
    clean_data 0 (initial scenario) = (Ok 1%nat, scenario_after_clean) ∧
    load_data (λ _, Ok scenario) ten_characters cache "data.xlsx" scenario_after_clean
      = (Ok (2%nat, cache), st3) ∧
    heap st3 !! 0%nat = Some (replace_nulls scenario) ∧
    heap st3 !! 2%nat = Some scenario.
Proof.
  exists {["data.xlsx" := scenario]},
         {| heap := heap scenario_after_clean ++ [scenario]; page := [] |}.
  split_and!; by_evaluation.
Qed.

(** ** The tables behind the previews and the charts *)

Lemma filter_length_removed (cols : list string) (chosen : string) :
  NoDup cols → chosen ∈ cols →
  S (length (filter (λ col, col ≠ chosen) cols)) = length cols.
Proof.
  induction 1 as [|c cols Hc Hnd IH]; [by intros ?%elem_of_nil|].
  rewrite filter_cons. intros [->|Hin]%elem_of_cons.
  - rewrite decide_False by (by intros []). simpl. f_equal.
    clear IH Hnd. induction cols as [|c' cols IH]; [done|].
    rewrite filter_cons. rewrite decide_True by (intros ->; apply Hc; by left).
    simpl. f_equal. apply IH. intros ?. apply Hc. by right.
  - rewrite decide_True by (intros ->; done). simpl. f_equal. by apply IH.
Qed.

(** X15. The options offered for the second axis never contain the
    column chosen for the first axis; when the columns are distinct and
    at least two, and the first choice is one of them, the options are
    all the other columns in their order, one fewer, so that a second
    column can always be chosen. *)
Theorem other_columns_offers_the_rest cols chosen :
  (chosen ∉ other_columns cols chosen) ∧
  other_columns cols chosen `sublist_of` cols ∧
  (∀ col, col ∈ other_columns cols chosen ↔ col ∈ cols ∧ col ≠ chosen) ∧
  (NoDup cols → chosen ∈ cols → 2 ≤ length cols →
   S (length (other_columns cols chosen)) = length cols ∧
   ∃ col, head (other_columns cols chosen) = Some col ∧ col ≠ chosen).
Proof.
  unfold other_columns. split_and!.
  - by intros [? _]%list_elem_of_filter.
  - apply sublist_filter.
  - intros col. rewrite list_elem_of_filter. tauto.
  - intros Hnd Hin Hlen. pose proof (filter_length_removed cols chosen Hnd Hin) as Hn.
    split; [done|].
    destruct (filter (λ col, col ≠ chosen) cols) as [|col rest] eqn:Hf; [simpl in Hn; lia|].
    exists col. split; [done|].
    assert (col ∈ filter (λ col, col ≠ chosen) cols) as Hcol by (rewrite Hf; by left).
    by apply list_elem_of_filter in Hcol as [? _].
Qed.

Lemma other_columns_offers_the_rest_witness :
  S (length (other_columns ["Sales"; "avg_sales_by_group"; "sales_ratio"] "Sales")) =
    length ["Sales"; "avg_sales_by_group"; "sales_ratio"] ∧
  ∃ col, head (other_columns ["Sales"; "avg_sales_by_group"; "sales_ratio"] "Sales")
           = Some col ∧ col ≠ "Sales".
Proof.
  destruct (other_columns_offers_the_rest
              ["Sales"; "avg_sales_by_group"; "sales_ratio"] "Sales") as (_ & _ & _ & H).
  apply H.
  - by_evaluation.
  - by_evaluation.
  - simpl. lia.
Defined.

(** *** Groups partition the records that have a key *)

Lemma filter_ext_in {A} (P Q : A → Prop) `{∀ x, Decision (P x), ∀ x, Decision (Q x)}
    (l : list A) :
  (∀ x, x ∈ l → P x ↔ Q x) → filter P l = filter Q l.
Proof.
  induction l as [|x l IH]; [done|]. intros HPQ. rewrite !filter_cons.
  rewrite IH by (intros y Hy; apply HPQ; by right).
  destruct (decide (P x)) as [HP|HP].
  - by rewrite decide_True by (by apply (HPQ x); [left|]).
  - rewrite decide_False; [done|]. intros HQ. apply HP. by apply (HPQ x); [left|].
Qed.

Lemma filter_disjoint_union {A} (P Q : A → Prop)
    `{∀ x, Decision (P x), ∀ x, Decision (Q x)} (l : list A) :
  (∀ x, P x → Q x → False) →
  filter P l ++ filter Q l ≡ₚ filter (λ x, P x ∨ Q x) l.
Proof.
  intros Hdis. induction l as [|x l IH]; [done|]. rewrite !filter_cons.
  destruct (decide (P x)) as [HP|HP], (decide (Q x)) as [HQ|HQ].
  - by destruct (Hdis x).
  - rewrite decide_True by (by left). simpl. by rewrite IH.
  - rewrite decide_True by (by right). rewrite <-Permutation_middle. by rewrite IH.
  - rewrite decide_False by (by intros [|]). done.
Qed.

Lemma groups_partition {A K} `{EqDecision K} (f : A → option K) (ks : list K) (l : list A) :
  NoDup ks →
  mjoin ((λ k, filter (λ x, f x = Some k) l) <$> ks) ≡ₚ
  filter (λ x, Exists (λ k, f x = Some k) ks) l.
Proof.
  induction 1 as [|k ks Hk Hnd IH].
  - simpl. induction l as [|x l IHl]; [done|]. rewrite filter_cons.
    rewrite decide_False; [done|]. by intros ?%Exists_nil.
  - rewrite fmap_cons. simpl. rewrite IH.
    rewrite filter_disjoint_union.
    + match goal with |- ?a ≡ₚ ?b => cut (a = b); [by intros ->|] end.
      apply list_filter_iff. intros x. by rewrite Exists_cons.
    + intros x Hx (k' & Hk' & Hx')%Exists_exists.
      rewrite Hx in Hx'. injection Hx' as <-. done.
Qed.

Lemma groups_cover {A K} `{EqDecision K} (f : A → option K) (l : list A) :
  mjoin ((λ k, filter (λ x, f x = Some k) l) <$> remove_dups (omap f l)) ≡ₚ
  filter (λ x, is_Some (f x)) l.
Proof.
  rewrite groups_partition by apply NoDup_remove_dups.
  match goal with |- ?a ≡ₚ ?b => cut (a = b); [by intros ->|] end.
  apply filter_ext_in. intros x Hx.
  rewrite Exists_exists. split.
  - intros (k & _ & Hk). by exists k.
  - intros [k Hk]. exists k. split; [|done].
    apply elem_of_remove_dups, list_elem_of_omap. eauto.
Qed.

(** *** The bar charts: total sales by country and by segment *)

Section Charts_properties.
Context {arithmetic : Arithmetic}.

Lemma group_single key k (rs : list (gmap string value)) :
  group [key] [k] rs = filter (λ r : gmap string value, r !! key = Some k) rs.
Proof.
  unfold group. apply list_filter_iff. intros r. unfold row_key. cbn.
  destruct (r !! key) as [v|]; cbn; [|done]. split; by intros [= ->].
Qed.

Lemma Forall2_eq_fmap {A B} (f : A → B) (l : list A) (k : list B) :
  Forall2 (λ x y, y = f x) l k → k = f <$> l.
Proof. induction 1 as [|x y l k -> _ ->]; done. Qed.

Lemma groupby_sum_Ok key col d t :
  groupby_sum key col d = Ok t →
  key ∈ columns d ∧ col ∈ columns d ∧
  t = (λ k, (k, sum_of (present_numbers col
                          (filter (λ r : gmap string value, r !! key = Some k) (rows d)))))
      <$> group_values key (rows d).
Proof.
  unfold groupby_sum. case_bool_decide as Hkey; [|done]. case_bool_decide as Hcol; [|done].
  intros Ht%mapM_Ok_inv. split_and!; [done..|]. apply Forall2_eq_fmap.
  eapply list.Forall2_impl; [exact Ht|]. intros k e. simpl. unfold group_sum.
  destruct (numbers _) as [qs|] eqn:Hqs; [|done]. intros [= <-].
  apply numbers_present in Hqs. by rewrite Hqs, group_single.
Qed.

Lemma larger_sum_first_total : Total larger_sum_first.
Proof.
  intros a b. unfold larger_sum_first.
  destruct (Qclt_le_dec (a.2) (b.2)) as [Hlt|Hle]; [right|left]; [|done].
  by apply Qclt_le_weak.
Qed.

Lemma larger_sum_first_transitive : Transitive larger_sum_first.
Proof. intros a b c Hab Hbc. unfold larger_sum_first in *. by eapply Qcle_trans. Qed.

Lemma sales_by_Ok key d t :
  sales_by key d = Ok t →
  ∃ t0, groupby_sum key "Sales" d = Ok t0 ∧ t = merge_sort larger_sum_first t0.
Proof.
  unfold sales_by. destruct (groupby_sum _ _ _) as [t0|]; [|done].
  intros [= <-]. by exists t0.
Qed.

(** X16. The table of a bar chart is in descending order of its sums (no
    entry is followed by one with a larger sum), and it has exactly one
    entry for every value that occurs in the key column. *)
Theorem sales_by_sorted key d t :
  sales_by key d = Ok t →
  StronglySorted (λ a b : value * Qc, (b.2 ≤ a.2)%Qc) t ∧
  NoDup t.*1 ∧
  ∀ k, k ∈ t.*1 ↔ ∃ r, r ∈ rows d ∧ r !! key = Some k.
Proof.
  intros (t0 & Ht0 & ->)%sales_by_Ok.
  apply groupby_sum_Ok in Ht0 as (_ & _ & ->).
  set (f := λ k, (k, sum_of _)).
  assert ((f <$> group_values key (rows d)).*1 = group_values key (rows d)) as Hkeys.
  { rewrite <-list_fmap_compose. apply list_fmap_id. }
  pose proof (merge_sort_Permutation larger_sum_first (f <$> group_values key (rows d)))
    as Hperm.
  split_and!.
  - apply (@StronglySorted_merge_sort _ larger_sum_first _
             larger_sum_first_transitive larger_sum_first_total).
  - rewrite Hperm, Hkeys. apply NoDup_remove_dups.
  - intros k. rewrite Hperm, Hkeys. unfold group_values.
    rewrite elem_of_remove_dups, list_elem_of_omap. done.
Qed.

End Charts_properties.

Lemma sales_by_sorted_witness :
  StronglySorted (λ a b : value * Qc, (b.2 ≤ a.2)%Qc)
    [(Str "B", Qc_of_Z 30); (Str "A", Qc_of_Z 15)] ∧
  NoDup [(Str "B", Qc_of_Z 30); (Str "A", Qc_of_Z 15)].*1 ∧
  ∀ k, k ∈ [(Str "B", Qc_of_Z 30); (Str "A", Qc_of_Z 15)].*1 ↔
       ∃ r, r ∈ rows world ∧ r !! "Country" = Some k.
Proof.
  apply (sales_by_sorted "Country" world). by_evaluation.
Defined.

(** *** The table of counts *)

Lemma group_nonempty on k (rs : list (gmap string value)) :
  group on k rs ≠ [] ↔ k ∈ remove_dups (omap (row_key on) rs).
Proof.
  rewrite elem_of_remove_dups, list_elem_of_omap. unfold group. split.
  - destruct (filter _ rs) as [|r l] eqn:Hf; [done|]. intros _.
    assert (r ∈ filter (λ r, row_key on r = Some k) rs) as Hr by (rewrite Hf; by left).
    apply list_elem_of_filter in Hr as [? ?]. eauto.
  - intros (r & Hr & Hk) Hnil.
    assert (r ∈ filter (λ r, row_key on r = Some k) rs) as Hin
      by (by apply list_elem_of_filter).
    rewrite Hnil in Hin. by apply elem_of_nil in Hin.
Qed.

Lemma keyed_table_lookup {V} (f : list value → V) (ks : list (list value)) k :
  NoDup ks →
  (list_to_map ((λ k, (k, f k)) <$> ks) : gmap (list value) V) !! k =
  if decide (k ∈ ks) then Some (f k) else None.
Proof.
  intros Hnd.
  assert (((λ k, (k, f k)) <$> ks).*1 = ks) as Hkeys.
  { rewrite <-list_fmap_compose. apply list_fmap_id. }
  case_decide as Hk.
  - apply elem_of_list_to_map_1; [by rewrite Hkeys|].
    apply list_elem_of_fmap. by exists k.
  - apply not_elem_of_list_to_map_1. by rewrite Hkeys.
Qed.

(** X18. The table of counts lists exactly the key combinations that
    occur, each with the number of Records that have it, and the counts
    add up to the number of Records in which every key column has a
    value. *)
Theorem groupby_size_counts on d t :
  groupby_size on d = Ok t →
  (∀ k, t !! k = if decide (group on k (rows d) = []) then None
                 else Some (length (group on k (rows d)))) ∧
  sum_list (map_to_list t).*2 =
  length (filter (λ r, is_Some (row_key on r)) (rows d)).
Proof.
  unfold groupby_size. destruct (filter _ on) as [|c l]; [|done].
  case_bool_decide; [done|]. intros [= <-].
  set (ks := remove_dups (omap (row_key on) (rows d))).
  assert (NoDup ks) as Hnd by apply NoDup_remove_dups.
  split.
  - intros k. rewrite (keyed_table_lookup (λ k, length (group on k (rows d))) ks k Hnd).
    destruct (decide (group on k (rows d) = [])) as [Hnil|Hne].
    + rewrite decide_False; [done|]. by intros ?%group_nonempty.
    + rewrite decide_True; [done|]. by apply group_nonempty.
  - rewrite map_to_list_to_map; cycle 1.
    { rewrite <-list_fmap_compose. by rewrite list_fmap_id. }
    rewrite <-list_fmap_compose.
    transitivity (sum_list (length <$> ((λ k, group on k (rows d)) <$> ks))).
    { by rewrite <-list_fmap_compose. }
    rewrite <-length_join. unfold ks, group.
    by rewrite (groups_cover (row_key on) (rows d)).
Qed.

Lemma groupby_size_counts_witness :
  ∃ t, groupby_size ["Country"; "Segment"] world = Ok t ∧
       t !! [Str "A"; Str "X"] = Some 1%nat ∧
       t !! [Str "B"; Str "Y"] = None ∧
       sum_list (map_to_list t).*2 = 3%nat.
Proof.
  destruct (groupby_size ["Country"; "Segment"] world) as [t|e] eqn:Ht;
    [|vm_compute in Ht; discriminate Ht].
  destruct (groupby_size_counts ["Country"; "Segment"] world t Ht) as [Hlook Hsum].
  exists t. split; [done|]. rewrite !Hlook, Hsum. split_and!; by_evaluation.
Defined.

(** *** The table of aggregated metrics *)

Lemma first_valid_head col (r : gmap string value) rs v :
  r !! col = Some v → first_valid col (r :: rs) = Some v.
Proof. intros Hv. unfold first_valid. simpl. by rewrite Hv. Qed.

(** X19. For a cleaned Dataset without a column labelled
    avg_sales_by_group on which the Aggregator returns a Dataset, the
    table of aggregated metrics has, for every GroupKey that occurs, one
    entry that shows the measure of the first Record of the group, the
    mean of the group and the sum of the group. *)
Theorem agg_data_shows_group_statistics {arithmetic : Arithmetic} d out r g :
  cleaned d → "avg_sales_by_group" ∉ columns d →
  add_aggregated_features d = Ok out →
  r ∈ rows d → row_key keys r = Some g →
  ∃ t qs first,
    agg_data out = Ok t ∧
    measures "Sales" (group keys g (rows d)) = Some qs ∧
    head (group keys g (rows d)) = Some first ∧
    t !! g = Some [first !! "Sales"; Some (Num (mean_of qs)); Some (Num (sum_of qs))].
Proof.
  intros Hcl Hfree Hout Hr Hg.
  destruct (group_member_measures d r g Hcl Hr Hg) as (qs & Hqs & Havg).
  destruct (aggregate_groups d out Hout) as (t0 & Ht0 & Hgroups). specialize (Hgroups g).
  assert (r ∈ group keys g (rows d)) as Hmem by (by apply list_elem_of_filter).
  destruct (group keys g (rows d)) as [|first rest] eqn:Hgd;
    [by apply elem_of_nil in Hmem|].
  destruct (group keys g (rows out)) as [|first' rest'] eqn:Hgo;
    [by apply Forall2_length in Hgroups|].
  apply Forall2_cons_1 in Hgroups as [(Hfirst & Hkey & Hrow) _].
  pose proof Hcl as Hcl'. unfold cleaned in Hcl'. rewrite list.Forall_forall in Hcl'.
  destruct (Hcl' first Hfirst) as (q & Hq & _).
  rewrite <-Hgd in Hqs.
  destruct Hrow as (_ & _ & Hs & Htot & Ha & _).
  rewrite (bool_decide_eq_false_2 _ Hfree) in Ha.
  rewrite (joined_statistics d t0 first g qs Ht0 Hfirst Hkey Hqs) in Htot, Ha.
  simpl in Htot, Ha. rewrite Havg in Ha. rewrite Hq in Hs.
  apply aggregate_inv in Hout as (t1 & Htab & _ & _ & Hcols & _); [|done].
  apply groupby_agg_Ok in Htab as [(Hc1 & Hc2 & Hc3) _].
  assert (∀ c, c ∈ columns d ++ ["avg_sales_by_group"; "total_sales_by_group"] →
               c ∈ columns out) as Hin.
  { intros c Hc. rewrite Hcols. case_bool_decide; [done|].
    rewrite elem_of_app in Hc. rewrite elem_of_app.
    destruct Hc as [|Hc]; [by left|right].
    rewrite !elem_of_cons in *. tauto. }
  exists (list_to_map ((λ k, (k, (λ c, first_valid c (group keys k (rows out)))
                                  <$> ["Sales"; "avg_sales_by_group"; "total_sales_by_group"]))
                       <$> remove_dups (omap (row_key keys) (rows out)))),
         qs, first.
  split_and!; [|by rewrite <-Hgd|done|].
  - unfold agg_data, groupby_first. cbn [app]. rewrite !filter_cons, filter_nil.
    rewrite !decide_False; [done|intros Hn; apply Hn, Hin; rewrite elem_of_app, !elem_of_cons; tauto..].
  - rewrite (keyed_table_lookup _ _ g (NoDup_remove_dups _)).
    rewrite decide_True by (apply group_nonempty; by rewrite Hgo).
    rewrite Hgo. cbn [fmap list_fmap]. f_equal.
    rewrite (first_valid_head "Sales" first' rest' _ Hs).
    rewrite (first_valid_head "avg_sales_by_group" first' rest' _ Ha).
    rewrite (first_valid_head "total_sales_by_group" first' rest' _ Htot).
    by rewrite Hq.
Qed.

Lemma agg_data_shows_group_statistics_witness :
  ∃ t qs first,
    agg_data scenario_aggregated = Ok t ∧
    measures "Sales" (group keys [Str "A"; Str "X"] (rows scenario_cleaned)) = Some qs ∧
    head (group keys [Str "A"; Str "X"] (rows scenario_cleaned)) = Some first ∧
    t !! [Str "A"; Str "X"] =
      Some [first !! "Sales"; Some (Num (mean_of qs)); Some (Num (sum_of qs))].
Proof.
  apply (agg_data_shows_group_statistics scenario_cleaned scenario_aggregated
           (record (Some (num 10)) "A" "X")).
  - repeat constructor; eexists; (split; [reflexivity|by_evaluation]).
  - by_evaluation.
  - by_evaluation.
  - by_evaluation.
  - reflexivity.
Defined.

(** On the frame the Aggregator returns for a Dataset that had a column
    avg_sales_by_group, the table cannot be built: the label is gone. *)
Example agg_data_averaged :
  agg_data averaged_aggregated = Raise (KeyError "avg_sales_by_group").
Proof. by_evaluation. Qed.
